(** * The KMSIssuer reconciliation loop (controllers/kmsissuer_controller.go)

    A shallow embedding of the controller of the kms-issuer operator: the
    defaulting of the issuer's timing fields, the renewal decision, the
    status reporters and the [Reconcile] driver, followed by the properties
    of the design document that are stated about them.

    Go values are modelled as the code has them.  A [time.Duration] is a
    signed 64-bit count of nanoseconds: it is a [Z] whose arithmetic wraps
    around, and [time.Sub] saturates as the Go library does.  A pointer that
    may be nil is an [option].  A [*big.Int] is an address into a store of
    allocated integers, because the controller compares two of them with
    [!=].  The effects of the controller (clock readings, calls to the API
    server, events, log lines, allocations) are threaded through a [World]
    by a state monad whose failure is a Go panic. *)

From Stdlib Require Import ZArith List String Bool Lia.
From ExtLib Require Import Structures.Monad Structures.MonadState.
From ExtLib Require Import Data.Monads.StateMonad Data.Monads.OptionMonad.
Import ListNotations.
Import MonadNotation.
Local Open Scope monad_scope.
Local Open Scope Z_scope.

#[local] Existing Instance Monad_stateT.

(* ===================================================================== *)
(** ** Machine integers *)
(* ===================================================================== *)

Module Int64.

Definition MinInt64 : Z := - 2 ^ 63.
Definition MaxInt64 : Z := 2 ^ 63 - 1.

Definition in_range (z : Z) : Prop := MinInt64 <= z <= MaxInt64.

(** Two's complement reduction of an exact result to 64 bits. *)
Definition wrap (z : Z) : Z := (z + 2 ^ 63) mod 2 ^ 64 - 2 ^ 63.

(** Clamping of an exact result to the 64-bit range. *)
Definition saturate (z : Z) : Z :=
  if z <? MinInt64 then MinInt64
  else if MaxInt64 <? z then MaxInt64
  else z.

Definition mul (a b : Z) : Z := wrap (a * b).
Definition sub (a b : Z) : Z := wrap (a - b).

End Int64.

(* ===================================================================== *)
(** ** Package time *)
(* ===================================================================== *)

Module time.

(** [type Duration int64], in nanoseconds. *)
Definition Duration : Type := Z.

(** An instant, in nanoseconds since the epoch.  The instants the
    controller handles come from certificates and from the wall clock and
    are far inside what a [time.Time] can hold, so they are exact. *)
Definition Time : Type := Z.

Definition Nanosecond : Duration := 1.
Definition Microsecond : Duration := 1000 * Nanosecond.
Definition Millisecond : Duration := 1000 * Microsecond.
Definition Second : Duration := 1000 * Millisecond.
Definition Minute : Duration := 60 * Second.
Definition Hour : Duration := 60 * Minute.

(** [t.Add(d)]. *)
Definition Add (t : Time) (d : Duration) : Time := t + d.

(** [t.Sub(u)]: the difference, or the largest (smallest) duration when
    the difference does not fit. *)
Definition Sub (t u : Time) : Duration := Int64.saturate (t - u).

End time.

(* ===================================================================== *)
(** ** Data model *)
(* ===================================================================== *)

Definition bytes : Type := list Byte.byte.

(** [metav1.Duration] is a struct around a [time.Duration]; the spec holds
    pointers to it, nil when the field is unset. *)
Record KMSIssuerSpec : Type := {
  KeyID : string;
  CommonName : string;
  Duration : option time.Duration;
  RenewBefore : option time.Duration
}.

Inductive ConditionStatus : Type :=
| ConditionTrue
| ConditionFalse
| ConditionUnknown.

Record Condition : Type := {
  CondType : string;
  CondStatus : ConditionStatus;
  Reason : string;
  Message : string;
  LastTransitionTime : time.Time
}.

Record KMSIssuerStatus : Type := {
  Conditions : list Condition;
  Certificate : bytes
}.

Record KMSIssuer : Type := {
  Name : string;
  Spec : KMSIssuerSpec;
  Status : KMSIssuerStatus
}.

Definition with_Spec (issuer : KMSIssuer) (s : KMSIssuerSpec) : KMSIssuer :=
  {| Name := Name issuer; Spec := s; Status := Status issuer |}.

Definition with_Status (issuer : KMSIssuer) (s : KMSIssuerStatus) : KMSIssuer :=
  {| Name := Name issuer; Spec := Spec issuer; Status := s |}.

Definition with_Duration (s : KMSIssuerSpec) (d : option time.Duration) : KMSIssuerSpec :=
  {| KeyID := KeyID s; CommonName := CommonName s;
     Duration := d; RenewBefore := RenewBefore s |}.

Definition with_RenewBefore (s : KMSIssuerSpec) (d : option time.Duration) : KMSIssuerSpec :=
  {| KeyID := KeyID s; CommonName := CommonName s;
     Duration := Duration s; RenewBefore := d |}.

(* ===================================================================== *)
(** ** Policy constants *)
(* ===================================================================== *)

(** [DefaultCertDuration = time.Hour * 24 * 365 * 3]. *)
Definition DefaultCertDuration : time.Duration := time.Hour * 24 * 365 * 3.

(** [DefaultCertRenewalRatio = 2 / 3]: a quotient of two untyped integer
    constants, which Go evaluates as an integer division. *)
Definition DefaultCertRenewalRatio : Z := Z.quot 2 3.

(* ===================================================================== *)
(** ** Default Resolver *)
(* ===================================================================== *)

(** Dereference of a pointer: a nil pointer panics. *)
Definition deref {A : Type} (p : option A) : option A := p.

(** [setIssuerDefaultValues].  The function updates the issuer in place; the
    updated issuer is returned here.  [None] is a nil-pointer panic. *)
Definition setIssuerDefaultValues (issuer : KMSIssuer) : option KMSIssuer :=
  let issuer :=
    match Duration (Spec issuer) with
    | None => with_Spec issuer (with_Duration (Spec issuer) (Some DefaultCertDuration))
    | Some d =>
        if d =? 0
        then with_Spec issuer (with_Duration (Spec issuer) (Some DefaultCertDuration))
        else issuer
    end in
  issuer <-
    match RenewBefore (Spec issuer) with
    | None =>
        d <- deref (Duration (Spec issuer)) ;;
        ret (with_Spec issuer
               (with_RenewBefore (Spec issuer)
                  (Some (Int64.mul d DefaultCertRenewalRatio))))
    | Some _ => ret issuer
    end ;;
  rb <- deref (RenewBefore (Spec issuer)) ;;
  d <- deref (Duration (Spec issuer)) ;;
  if d <? rb
  then
    d <- deref (Duration (Spec issuer)) ;;
    ret (with_Spec issuer
           (with_RenewBefore (Spec issuer)
              (Some (Int64.mul d DefaultCertRenewalRatio))))
  else ret issuer.

(** [kmsca.GenerateCertificateAuthorityCertificateInput]; the subject carries
    only a common name. *)
Record GenerateCertificateAuthorityCertificateInput : Type := {
  InKeyID : string;
  InSubjectCommonName : string;
  InDuration : time.Duration;
  InRounding : time.Duration
}.

(** [desiredCertificateAuthorityCertificateInput]. *)
Definition desiredCertificateAuthorityCertificateInput (issuer : KMSIssuer)
  : option GenerateCertificateAuthorityCertificateInput :=
  d <- deref (Duration (Spec issuer)) ;;
  d' <- deref (Duration (Spec issuer)) ;;
  rb <- deref (RenewBefore (Spec issuer)) ;;
  ret {| InKeyID := KeyID (Spec issuer);
         InSubjectCommonName := CommonName (Spec issuer);
         InDuration := d;
         InRounding := Int64.sub d' rb |}.

(* ===================================================================== *)
(** ** Certificates, errors and the world of one invocation *)
(* ===================================================================== *)

Inductive error : Type :=
| ErrNotFound
| ErrConflict
| ErrMessage (msg : string).

(** [client.IgnoreNotFound]. *)
Definition IgnoreNotFound (err : error) : option error :=
  match err with
  | ErrNotFound => None
  | _ => Some err
  end.

(** A [*big.Int]: nil, or the address of an allocated integer. *)
Definition big_Int_ptr : Type := option nat.

Definition ptr_eqb (p q : big_Int_ptr) : bool :=
  match p, q with
  | None, None => true
  | Some a, Some b => Nat.eqb a b
  | _, _ => false
  end.

(** The fields of [x509.Certificate] the controller reads. *)
Record x509_Certificate : Type := {
  SerialNumber : big_Int_ptr;
  NotAfter : time.Time;
  Raw : bytes
}.

(** What a certificate encodes: the values behind those fields. *)
Record CertificateFields : Type := {
  serialNumber : Z;
  notAfter : time.Time;
  raw : bytes
}.

Inductive EventType : Type :=
| EventTypeNormal
| EventTypeWarning.

Record Event : Type := {
  EvObject : string;
  EvType : EventType;
  EvReason : string;
  EvMessage : string
}.

Inductive LogLine : Type :=
| LogInfo (msg : string)
| LogError (err : error) (msg : string).

(** One call of [Status().Update]: the object submitted and the answer. *)
Record StatusWrite : Type := {
  Submitted : KMSIssuer;
  Answer : option error
}.

(** Everything outside the controller that one invocation touches.
    - [bigInts]: the integers allocated so far; a [*big.Int] is a position
      in this list.
    - [clock], [clockReads]: the successive readings of the wall clock and
      how many were taken.
    - [store]: the resources persisted in the API server.
    - [apiFault], [apiCalls]: the fault (if any) with which the API server
      answers each successive call, and how many calls were made.
    - [statusWrites], [events], [logLines]: the traces of status updates,
      recorded events and log lines, oldest first. *)
Record World : Type := {
  bigInts : list Z;
  clock : nat -> time.Time;
  clockReads : nat;
  store : string -> option KMSIssuer;
  apiFault : nat -> option error;
  apiCalls : nat;
  statusWrites : list StatusWrite;
  events : list Event;
  logLines : list LogLine
}.

Definition set_bigInts (w : World) (h : list Z) : World :=
  {| bigInts := h; clock := clock w; clockReads := clockReads w;
     store := store w; apiFault := apiFault w; apiCalls := apiCalls w;
     statusWrites := statusWrites w; events := events w; logLines := logLines w |}.

Definition tick_clock (w : World) : World :=
  {| bigInts := bigInts w; clock := clock w; clockReads := S (clockReads w);
     store := store w; apiFault := apiFault w; apiCalls := apiCalls w;
     statusWrites := statusWrites w; events := events w; logLines := logLines w |}.

Definition tick_api (w : World) : World :=
  {| bigInts := bigInts w; clock := clock w; clockReads := clockReads w;
     store := store w; apiFault := apiFault w; apiCalls := S (apiCalls w);
     statusWrites := statusWrites w; events := events w; logLines := logLines w |}.

Definition set_store (w : World) (s : string -> option KMSIssuer) : World :=
  {| bigInts := bigInts w; clock := clock w; clockReads := clockReads w;
     store := s; apiFault := apiFault w; apiCalls := apiCalls w;
     statusWrites := statusWrites w; events := events w; logLines := logLines w |}.

Definition add_statusWrite (w : World) (u : StatusWrite) : World :=
  {| bigInts := bigInts w; clock := clock w; clockReads := clockReads w;
     store := store w; apiFault := apiFault w; apiCalls := apiCalls w;
     statusWrites := statusWrites w ++ [u]; events := events w; logLines := logLines w |}.

Definition add_event (w : World) (e : Event) : World :=
  {| bigInts := bigInts w; clock := clock w; clockReads := clockReads w;
     store := store w; apiFault := apiFault w; apiCalls := apiCalls w;
     statusWrites := statusWrites w; events := events w ++ [e]; logLines := logLines w |}.

Definition add_logLine (w : World) (l : LogLine) : World :=
  {| bigInts := bigInts w; clock := clock w; clockReads := clockReads w;
     store := store w; apiFault := apiFault w; apiCalls := apiCalls w;
     statusWrites := statusWrites w; events := events w; logLines := logLines w ++ [l] |}.

(** The controller's computations: a state monad over the world in which
    the absence of a result is a panic. *)
Definition M : Type -> Type := stateT World option.

Definition run {A : Type} (c : M A) (w : World) : option (A * World) :=
  runStateT c w.

(** The value a computation returns, the world forgotten. *)
Definition answer {A : Type} (r : option (A * World)) : option A :=
  option_map fst r.

(** A computation that cannot touch the world but may panic. *)
Definition liftOption {A : Type} (o : option A) : M A :=
  mkStateT (fun w => match o with
                     | Some a => Some (a, w)
                     | None => None
                     end).

(** [time.Now()]. *)
Definition time_Now : M time.Time :=
  w <- get ;;
  put (tick_clock w) ;;
  ret (clock w (clockReads w)).

(** [time.Until(t)], which is [t.Sub(time.Now())]. *)
Definition time_Until (t : time.Time) : M time.Duration :=
  now <- time_Now ;;
  ret (time.Sub t now).

(** Allocation of a [big.Int] holding [v]. *)
Definition new_big_Int (v : Z) : M big_Int_ptr :=
  w <- get ;;
  put (set_bigInts w (bigInts w ++ [v])) ;;
  ret (Some (List.length (bigInts w))).

(** The value a [*big.Int] points to. *)
Definition big_Int_value (h : list Z) (p : big_Int_ptr) : option Z :=
  match p with
  | None => None
  | Some a => nth_error h a
  end.

(** A pointer is well formed in a store when it is nil or allocated. *)
Definition allocated (h : list Z) (p : big_Int_ptr) : Prop :=
  match p with
  | None => True
  | Some a => (a < List.length h)%nat
  end.

Definition log_Info (msg : string) : M unit :=
  modify (fun w => add_logLine w (LogInfo msg)) ;; ret tt.

Definition log_Error (err : error) (msg : string) : M unit :=
  modify (fun w => add_logLine w (LogError err msg)) ;; ret tt.

(** [r.Recorder.Event(issuer, eventtype, reason, message)]. *)
Definition Recorder_Event (issuer : KMSIssuer) (ty : EventType) (reason msg : string) : M unit :=
  modify (fun w => add_event w {| EvObject := Name issuer; EvType := ty;
                                  EvReason := reason; EvMessage := msg |}) ;;
  ret tt.

(** [r.Client.Get(ctx, key, issuer)]. *)
Definition Client_Get (key : string) : M (KMSIssuer + error) :=
  w <- get ;;
  put (tick_api w) ;;
  match apiFault w (apiCalls w) with
  | Some err => ret (inr err)
  | None =>
      match store w key with
      | Some issuer => ret (inl issuer)
      | None => ret (inr ErrNotFound)
      end
  end.

Definition update_store (s : string -> option KMSIssuer) (key : string) (v : KMSIssuer)
  : string -> option KMSIssuer :=
  fun k => if String.eqb k key then Some v else s k.

(** What the API server answers to a status update of [issuer]: the fault
    scheduled for this call if there is one, and "not found" if the object
    is gone. *)
Definition update_answer (w : World) (issuer : KMSIssuer) : option error :=
  match apiFault w (apiCalls w) with
  | Some err => Some err
  | None =>
      match store w (Name issuer) with
      | Some _ => None
      | None => Some ErrNotFound
      end
  end.

(** The status subresource of the persisted object replaced by the status
    of [issuer]. *)
Definition persist_status (w : World) (issuer : KMSIssuer) : World :=
  match store w (Name issuer) with
  | Some persisted =>
      set_store w (update_store (store w) (Name issuer)
                     (with_Status persisted (Status issuer)))
  | None => w
  end.

(** The world after a status update of [issuer]: the call is counted and
    traced, and the status is persisted when the answer is not an error. *)
Definition after_update (w : World) (issuer : KMSIssuer) : World :=
  let res := update_answer w issuer in
  let w' := add_statusWrite (tick_api w) {| Submitted := issuer; Answer := res |} in
  match res with
  | None => persist_status w' issuer
  | Some _ => w'
  end.

(** [r.Client.Status().Update(ctx, issuer)]. *)
Definition Client_Status_Update (issuer : KMSIssuer) : M (option error) :=
  w <- get ;;
  put (after_update w issuer) ;;
  ret (update_answer w issuer).

(* ===================================================================== *)
(** ** Conditions (package api/v1alpha1) *)
(* ===================================================================== *)

Definition ConditionReady : string := "Ready".
Definition KMSIssuerReasonIssued : string := "Issued".
Definition KMSIssuerReasonFailed : string := "Failed".

Definition ConditionStatus_eqb (a b : ConditionStatus) : bool :=
  match a, b with
  | ConditionTrue, ConditionTrue
  | ConditionFalse, ConditionFalse
  | ConditionUnknown, ConditionUnknown => true
  | _, _ => false
  end.

(** Modelled from the spec: [kmsiapi.NewCondition] is declared in the api
    package.  The design document gives a condition a type, a status, a
    reason, a message and a last transition time; a new condition is stamped
    with the current time. *)
Definition NewCondition (ty : string) (st : ConditionStatus) (reason msg : string)
  : M Condition :=
  now <- time_Now ;;
  ret {| CondType := ty; CondStatus := st; Reason := reason; Message := msg;
         LastTransitionTime := now |}.

(** Modelled from the spec: the merge of a condition into the ordered
    condition set, "replace-by-type, update lastTransitionTime only if
    status or reason changed"; a condition of a new type is added last. *)
Fixpoint mergeCondition (cs : list Condition) (c : Condition) : list Condition :=
  match cs with
  | [] => [c]
  | x :: rest =>
      if String.eqb (CondType x) (CondType c)
      then
        (if ConditionStatus_eqb (CondStatus x) (CondStatus c)
            && String.eqb (Reason x) (Reason c)
         then {| CondType := CondType c; CondStatus := CondStatus c;
                 Reason := Reason c; Message := Message c;
                 LastTransitionTime := LastTransitionTime x |}
         else c) :: rest
      else x :: mergeCondition rest c
  end.

(** Modelled from the spec: [KMSIssuerStatus.SetCondition], declared in the
    api package; it merges the condition and leaves the certificate alone. *)
Definition SetCondition (status : KMSIssuerStatus) (c : Condition) : KMSIssuerStatus :=
  {| Conditions := mergeCondition (Conditions status) c;
     Certificate := Certificate status |}.

(** The condition of a given type, if the set has one. *)
Definition GetCondition (status : KMSIssuerStatus) (ty : string) : option Condition :=
  List.find (fun c => String.eqb (CondType c) ty) (Conditions status).

(* ===================================================================== *)
(** ** The controller *)
(* ===================================================================== *)

(** The packages the controller calls and whose code is elsewhere: the PEM
    and X.509 codecs of the Go library, and the certificate authority. *)
Record Libraries : Type := {
  (** [pem.Decode]: the bytes of the first PEM block, if there is one. *)
  pem_Decode : bytes -> option bytes;
  (** [pem.EncodeToMemory] of a block of the given type. *)
  pem_EncodeToMemory : string -> bytes -> bytes;
  (** What [x509.ParseCertificate] reads in DER bytes, or its error. *)
  x509_decode : bytes -> CertificateFields + error
}.

(** [kmsca.KMSCA], as it behaves while the controller is invoked: the
    certificate it would issue for an input, and the outcome of issuing and
    signing one. *)
Record KMSCA : Type := {
  caPreview : GenerateCertificateAuthorityCertificateInput -> CertificateFields;
  caSign : GenerateCertificateAuthorityCertificateInput -> CertificateFields + error
}.

Section Controller.

Variable lib : Libraries.
Variable ca : KMSCA.

(** A certificate object built from decoded fields: its serial number is
    a newly allocated integer. *)
Definition new_Certificate (f : CertificateFields) : M x509_Certificate :=
  p <- new_big_Int (serialNumber f) ;;
  ret {| SerialNumber := p; NotAfter := notAfter f; Raw := raw f |}.

(** [x509.ParseCertificate]. *)
Definition x509_ParseCertificate (der : bytes) : M (x509_Certificate + error) :=
  match x509_decode lib der with
  | inl f => c <- new_Certificate f ;; ret (inl c)
  | inr err => ret (inr err)
  end.

(** [ParseCertificate]. *)
Definition ParseCertificate (cert : bytes) : M (x509_Certificate + error) :=
  match pem_Decode lib cert with
  | None => ret (inr (ErrMessage "failed to parse certificate PEM"))
  | Some block => x509_ParseCertificate block
  end.

(** [KMSCA.GenerateCertificateAuthorityCertificate]. *)
Definition GenerateCertificateAuthorityCertificate
    (input : GenerateCertificateAuthorityCertificateInput) : M x509_Certificate :=
  new_Certificate (caPreview ca input).

(** [KMSCA.GenerateAndSignCertificateAuthorityCertificate]. *)
Definition GenerateAndSignCertificateAuthorityCertificate
    (input : GenerateCertificateAuthorityCertificateInput)
  : M (x509_Certificate + error) :=
  match caSign ca input with
  | inl f => c <- new_Certificate f ;; ret (inl c)
  | inr err => ret (inr err)
  end.

(** [certificateNeedsRenewal]. *)
Definition certificateNeedsRenewal (issuer : KMSIssuer) (desiredCert : x509_Certificate)
  : M bool :=
  if (List.length (Certificate (Status issuer)) =? 0)%nat then ret true
  else
    parsed <- ParseCertificate (Certificate (Status issuer)) ;;
    match parsed with
    | inr _ => ret true
    | inl actualCert =>
        rb <- liftOption (deref (RenewBefore (Spec issuer))) ;;
        left <- time_Until (time.Add (NotAfter actualCert) (Int64.mul (-1) rb)) ;;
        if left =? 0 then ret true
        else if negb (ptr_eqb (SerialNumber desiredCert) (SerialNumber actualCert))
             then ret true
             else ret false
    end.

(** [manageSuccess]. *)
Definition manageSuccess (issuer : KMSIssuer) : M (option error) :=
  let reason := KMSIssuerReasonIssued in
  let msg := EmptyString in
  log_Info "successfully reconciled issuer" ;;
  Recorder_Event issuer EventTypeNormal reason msg ;;
  ready <- NewCondition ConditionReady ConditionTrue reason msg ;;
  let issuer := with_Status issuer (SetCondition (Status issuer) ready) in
  Client_Status_Update issuer.

(** [manageFailure]. *)
Definition manageFailure (issuer : KMSIssuer) (issue : error) (message : string)
  : M (option error) :=
  let reason := KMSIssuerReasonFailed in
  log_Error issue message ;;
  Recorder_Event issuer EventTypeWarning reason message ;;
  ready <- NewCondition ConditionReady ConditionFalse reason message ;;
  let issuer := with_Status issuer (SetCondition (Status issuer) ready) in
  Client_Status_Update issuer.

(** [ctrl.Result]. *)
Record Result : Type := { RequeueAfter : time.Duration }.

Definition Result_zero : Result := {| RequeueAfter := 0 |}.

(** The renewal block of [Reconcile]: it either returns from [Reconcile]
    ([inr]) or falls through with the issuer as it then is ([inl]). *)
Definition renew (issuer : KMSIssuer)
    (certInput : GenerateCertificateAuthorityCertificateInput)
  : M (KMSIssuer + (Result * option error)) :=
  log_Info "generate certificate" ;;
  signed <- GenerateAndSignCertificateAuthorityCertificate certInput ;;
  match signed with
  | inr err =>
      e <- manageFailure issuer err
             "Failed to generate the Certificate Authority Certificate" ;;
      ret (inr (Result_zero, e))
  | inl cert =>
      let issuer :=
        with_Status issuer
          {| Conditions := Conditions (Status issuer);
             Certificate := pem_EncodeToMemory lib "CERTIFICATE" (Raw cert) |} in
      updated <- Client_Status_Update issuer ;;
      match updated with
      | Some err =>
          e <- manageFailure issuer err
                 "Failed to update the issuer with the issued Certificate" ;;
          ret (inr (Result_zero, e))
      | None => ret (inl issuer)
      end
  end.

(** The end of [Reconcile]: the requeue directive is computed, then the
    success is reported. *)
Definition finish (issuer : KMSIssuer) (desiredCert : x509_Certificate)
  : M (Result * option error) :=
  rb <- liftOption (deref (RenewBefore (Spec issuer))) ;;
  after <- time_Until (time.Add (NotAfter desiredCert) (Int64.mul (-1) rb)) ;;
  e <- manageSuccess issuer ;;
  ret ({| RequeueAfter := after |}, e).

(** [Reconcile]. *)
Definition Reconcile (req : string) : M (Result * option error) :=
  got <- Client_Get req ;;
  match got with
  | inr err =>
      log_Error err "failed to retrieve KMSIssuer resource" ;;
      ret (Result_zero, IgnoreNotFound err)
  | inl issuer =>
      if String.eqb (KeyID (Spec issuer)) EmptyString
      then
        e <- manageFailure issuer (ErrMessage "INVALID KeyId")
               (String.append "Not a valid key: " (KeyID (Spec issuer))) ;;
        ret (Result_zero, e)
      else
        issuer <- liftOption (setIssuerDefaultValues issuer) ;;
        certInput <- liftOption (desiredCertificateAuthorityCertificateInput issuer) ;;
        desiredCert <- GenerateCertificateAuthorityCertificate certInput ;;
        needed <- certificateNeedsRenewal issuer desiredCert ;;
        step <- (if needed : bool then renew issuer certInput else ret (inl issuer)) ;;
        match step with
        | inr returned => ret returned
        | inl issuer => finish issuer desiredCert
        end
  end.

End Controller.


(* ===================================================================== *)
(** ** Observations on worlds *)
(* ===================================================================== *)

(** Two worlds in which the API server, the event recorder and the clock
    are the same: they differ at most by allocations, by clock readings
    and by log lines. *)
Definition same_server (w w' : World) : Prop :=
  store w' = store w /\ apiFault w' = apiFault w /\ apiCalls w' = apiCalls w
  /\ statusWrites w' = statusWrites w /\ events w' = events w
  /\ clock w' = clock w.

(** The certificate bytes persisted under a key. *)
Definition stored_certificate (w : World) (key : string) : option bytes :=
  option_map (fun issuer => Certificate (Status issuer)) (store w key).

(** The status updates made between two worlds. *)
Definition new_statusWrites (w w' : World) : list StatusWrite :=
  skipn (List.length (statusWrites w)) (statusWrites w').

(** The messages with which [Reconcile] reports a failure to sign and a
    failure to persist. *)
Definition msg_sign : string :=
  "Failed to generate the Certificate Authority Certificate".
Definition msg_update : string :=
  "Failed to update the issuer with the issued Certificate".

(** The Ready condition the reporters build, and the event they record. *)
Definition Ready_condition (st : ConditionStatus) (reason msg : string) (now : time.Time)
  : Condition :=
  {| CondType := ConditionReady; CondStatus := st; Reason := reason; Message := msg;
     LastTransitionTime := now |}.

Definition report_event (issuer : KMSIssuer) (ty : EventType) (reason msg : string)
  : Event :=
  {| EvObject := Name issuer; EvType := ty; EvReason := reason; EvMessage := msg |}.

(** What a report of [ready] on [issuer] changes between two worlds: one
    status update carrying the merged condition, one event, one API call and
    one clock reading; the persisted certificate becomes that of [issuer]
    when the update is accepted. *)
Definition reported (w : World) (issuer : KMSIssuer) (ev : Event) (ready : Condition)
    (w' : World) : Prop :=
  statusWrites w' =
    statusWrites w ++
      [{| Submitted := with_Status issuer (SetCondition (Status issuer) ready);
          Answer := update_answer w issuer |}]
  /\ events w' = events w ++ [ev]
  /\ apiFault w' = apiFault w /\ apiCalls w' = S (apiCalls w)
  /\ clock w' = clock w /\ clockReads w' = S (clockReads w)
  /\ (forall key, store w' key = None <-> store w key = None)
  /\ (forall key,
        stored_certificate w' key =
          match update_answer w issuer with
          | None => if String.eqb key (Name issuer)
                    then Some (Certificate (Status issuer))
                    else stored_certificate w key
          | Some _ => stored_certificate w key
          end).

(** The failures of the design document's taxonomy that [Reconcile] can
    meet once the issuer is retrieved. *)
Inductive Failure : Type :=
| ValidationFailure
| SigningFailure
| PersistenceFailure.

(** The message with which each is reported. *)
Definition failure_message (issuer : KMSIssuer) (f : Failure) : string :=
  match f with
  | ValidationFailure => String.append "Not a valid key: " (KeyID (Spec issuer))
  | SigningFailure => msg_sign
  | PersistenceFailure => msg_update
  end.

(** The conditions under which an invocation that retrieves [issuer] in the
    world [w] meets each failure: the key reference is empty; or it is not
    and the authority refuses to sign; or the authority signs and the API
    server answers the update that persists the certificate, the second
    call of the invocation, with a fault. *)
Definition meets (ca : KMSCA) (w : World) (issuer : KMSIssuer) (f : Failure) : Prop :=
  match f with
  | ValidationFailure => KeyID (Spec issuer) = EmptyString
  | SigningFailure =>
      KeyID (Spec issuer) <> EmptyString
      /\ exists issuer' input err,
           setIssuerDefaultValues issuer = Some issuer'
           /\ desiredCertificateAuthorityCertificateInput issuer' = Some input
           /\ caSign ca input = inr err
  | PersistenceFailure =>
      KeyID (Spec issuer) <> EmptyString
      /\ exists issuer' input cert err,
           setIssuerDefaultValues issuer = Some issuer'
           /\ desiredCertificateAuthorityCertificateInput issuer' = Some input
           /\ caSign ca input = inl cert
           /\ apiFault w (S (apiCalls w)) = Some err
  end.

(* ===================================================================== *)
(** ** Sample collaborators and resources *)
(* ===================================================================== *)

(** A toy PEM armour: one dash in front of the payload. *)
Definition sample_pem_Decode (b : bytes) : option bytes :=
  match b with
  | Byte.x2d :: payload => Some payload
  | _ => None
  end.

(** A toy DER layout: one byte of serial number, one byte of expiry in
    hours after the epoch. *)
Definition sample_x509_decode (der : bytes) : CertificateFields + error :=
  match der with
  | [s; h] =>
      inl {| serialNumber := Z.of_N (Byte.to_N s);
             notAfter := Z.of_N (Byte.to_N h) * time.Hour;
             raw := der |}
  | _ => inr (ErrMessage "x509: malformed certificate")
  end.

Definition sample_lib : Libraries :=
  {| pem_Decode := sample_pem_Decode;
     pem_EncodeToMemory := fun _ der => Byte.x2d :: der;
     x509_decode := sample_x509_decode |}.

(** A toy certificate authority, as it behaves in the first hour after the
    epoch: serial number 7, validity counted from the epoch. *)
Definition sample_preview (input : GenerateCertificateAuthorityCertificateInput)
  : CertificateFields :=
  let expiry := time.Add 0 (InDuration input) in
  {| serialNumber := 7;
     notAfter := expiry;
     raw := match Byte.of_N (Z.to_N (expiry / time.Hour)) with
            | Some h => [Byte.x07; h]
            | None => [Byte.x07]
            end |}.

Definition sample_ca : KMSCA :=
  {| caPreview := sample_preview;
     caSign := fun input => inl (sample_preview input) |}.

(** The same authority when the signing backend refuses. *)
Definition failing_ca : KMSCA :=
  {| caPreview := sample_preview;
     caSign := fun _ => inr (ErrMessage "kms: access denied") |}.

(** A world with a healthy API server, a clock read once per second from
    the given instant on, and the given resources. *)
Definition sample_world_at (start : time.Time) (s : string -> option KMSIssuer) : World :=
  {| bigInts := []; clock := fun n => start + Z.of_nat n * time.Second; clockReads := 0;
     store := s; apiFault := fun _ => None; apiCalls := 0;
     statusWrites := []; events := []; logLines := [] |}.

Definition sample_world (s : string -> option KMSIssuer) : World :=
  sample_world_at 0 s.

Definition no_status : KMSIssuerStatus := {| Conditions := []; Certificate := [] |}.

(** The issuer of the end-to-end scenario, with [renewBefore] unset. *)
Definition issuer_unset : KMSIssuer :=
  {| Name := "ca";
     Spec := {| KeyID := "k1"; CommonName := "ca.example";
                Duration := Some (3 * time.Hour); RenewBefore := None |};
     Status := no_status |}.

(** An issuer whose timing fields satisfy the invariant of the data model,
    holding a certificate with serial number 7 that expires at 10h. *)
Definition issuer_valid : KMSIssuer :=
  {| Name := "ca";
     Spec := {| KeyID := "k1"; CommonName := "ca.example";
                Duration := Some (3 * time.Hour); RenewBefore := Some time.Hour |};
     Status := {| Conditions := []; Certificate := [Byte.x2d; Byte.x07; Byte.x0a] |} |}.

(** An issuer without key reference. *)
Definition issuer_nokey : KMSIssuer :=
  {| Name := "ca";
     Spec := {| KeyID := ""; CommonName := "ca.example";
                Duration := None; RenewBefore := None |};
     Status := no_status |}.


Definition store_of (issuer : KMSIssuer) : string -> option KMSIssuer :=
  update_store (fun _ => None) (Name issuer) issuer.

(** A world that starts at the given instant, holds [issuer_valid] and has
    one integer allocated, of value 7; and a preview whose serial number is
    that integer. *)
Definition world_seven (start : time.Time) : World :=
  set_bigInts (sample_world_at start (store_of issuer_valid)) [7].

Definition preview_seven : x509_Certificate :=
  {| SerialNumber := Some 0%nat; NotAfter := 3 * time.Hour;
     Raw := [Byte.x07; Byte.x03] |}.


(** A world like [sample_world] in which the API server answers the second
    call of the invocation, and only that one, with a conflict. *)
Definition conflict_on_second_call (s : string -> option KMSIssuer) : World :=
  {| bigInts := []; clock := fun n => Z.of_nat n * time.Second; clockReads := 0;
     store := s; apiFault := fun n => if Nat.eqb n 1 then Some ErrConflict else None;
     apiCalls := 0; statusWrites := []; events := []; logLines := [] |}.

(** A world like [sample_world] in which the API server cannot be reached. *)
Definition unreachable_world (s : string -> option KMSIssuer) : World :=
  {| bigInts := []; clock := fun n => Z.of_nat n * time.Second; clockReads := 0;
     store := s; apiFault := fun _ => Some (ErrMessage "connection refused");
     apiCalls := 0; statusWrites := []; events := []; logLines := [] |}.

(** An issuer whose stored bytes are not a PEM block. *)
Definition issuer_corrupt : KMSIssuer :=
  {| Name := "ca";
     Spec := {| KeyID := "k1"; CommonName := "ca.example";
                Duration := None; RenewBefore := None |};
     Status := {| Conditions := []; Certificate := [Byte.x00; Byte.x01] |} |}.

(** An issuer that holds a certificate that parses but whose timing fields
    are unset. *)
Definition issuer_undefaulted : KMSIssuer :=
  {| Name := "ca";
     Spec := {| KeyID := "k1"; CommonName := "ca.example";
                Duration := None; RenewBefore := None |};
     Status := {| Conditions := []; Certificate := [Byte.x2d; Byte.x07; Byte.x0a] |} |}.

(** An event and a status update tell the same story: the update is for the
    object of the event, and the Ready condition it submits has the reason
    and the message of the event, and is True for a Normal event and False
    for a Warning. *)
Definition agrees (ev : Event) (write : StatusWrite) : Prop :=
  EvObject ev = Name (Submitted write)
  /\ exists ready,
       GetCondition (Status (Submitted write)) ConditionReady = Some ready
       /\ Reason ready = EvReason ev
       /\ Message ready = EvMessage ev
       /\ CondStatus ready =
            match EvType ev with
            | EventTypeNormal => ConditionTrue
            | EventTypeWarning => ConditionFalse
            end.

(* ===================================================================== *)
(** * Properties *)
(* ===================================================================== *)

(** ** Arithmetic of durations *)

Lemma wrap_in_range (z : Z) : Int64.in_range z -> Int64.wrap z = z.
Proof.
  unfold Int64.in_range, Int64.MinInt64, Int64.MaxInt64, Int64.wrap.
  intros H. rewrite Z.mod_small; lia.
Qed.


Lemma saturate_bounds (z : Z) : Int64.in_range (Int64.saturate z).
Proof.
  unfold Int64.in_range, Int64.saturate.
  destruct (Z.ltb_spec z Int64.MinInt64).
  - unfold Int64.MinInt64, Int64.MaxInt64. lia.
  - destruct (Z.ltb_spec Int64.MaxInt64 z); unfold Int64.MinInt64, Int64.MaxInt64 in *; lia.
Qed.


(** [t.Sub(u)] is zero at one instant only: when [t] is [u]. *)
Lemma Sub_zero_iff (t u : time.Time) : time.Sub t u = 0 <-> t = u.
Proof.
  unfold time.Sub, Int64.saturate, Int64.MinInt64, Int64.MaxInt64.
  destruct (Z.ltb_spec (t - u) (- 2 ^ 63)); [lia|].
  destruct (Z.ltb_spec (2 ^ 63 - 1) (t - u)); lia.
Qed.

Lemma DefaultCertRenewalRatio_is_zero : DefaultCertRenewalRatio = 0.
Proof. reflexivity. Qed.

(** Whatever the duration, its product with the renewal ratio is zero. *)
Lemma ratio_of_duration (d : Z) : Int64.mul d DefaultCertRenewalRatio = 0.
Proof.
  rewrite DefaultCertRenewalRatio_is_zero. unfold Int64.mul.
  rewrite Z.mul_0_r. reflexivity.
Qed.

Lemma DefaultCertDuration_value : DefaultCertDuration = 94608000000000000.
Proof. reflexivity. Qed.

(** ** Default Resolver *)

(** The resolver always returns, and what it returns has both timing fields
    set: the duration is the given one unless that was unset or zero, the
    renewal lead time is the given one unless that was unset or larger than
    the duration, in which case it is zero. *)
Lemma setIssuerDefaultValues_returns (issuer : KMSIssuer) :
  exists D R,
    setIssuerDefaultValues issuer =
      Some {| Name := Name issuer;
              Spec := {| KeyID := KeyID (Spec issuer);
                         CommonName := CommonName (Spec issuer);
                         Duration := Some D; RenewBefore := Some R |};
              Status := Status issuer |}
    /\ D <> 0 /\ (R <= D \/ R = 0)
    /\ (Duration (Spec issuer) = Some D
        \/ D = DefaultCertDuration
           /\ (Duration (Spec issuer) = None \/ Duration (Spec issuer) = Some 0))
    /\ (RenewBefore (Spec issuer) = Some R
        \/ R = 0 /\ (RenewBefore (Spec issuer) = None
                     \/ exists r, RenewBefore (Spec issuer) = Some r /\ D < r)).
Proof.
  destruct issuer as [n [k c d r] st].
  assert (HD : 0 < DefaultCertDuration) by reflexivity.
  unfold setIssuerDefaultValues; cbn.
  destruct d as [d|]; [destruct (Z.eqb_spec d 0) as [->|Hd]|];
    destruct r as [r|]; cbn; rewrite ?ratio_of_duration.
  all: try match goal with
           | |- context [?a <? ?b] => destruct (Z.ltb_spec a b); cbn
           end.
  all: rewrite ?ratio_of_duration.
  all: eexists; eexists; split; [reflexivity|].
  all: repeat split; try lia; eauto 6.
Qed.

(** An issuer whose timing fields are set, with a duration other than zero
    and a renewal lead time that is zero or does not exceed it, is left as
    it is. *)
Lemma setIssuerDefaultValues_fixed (issuer : KMSIssuer) (D R : Z) :
  Duration (Spec issuer) = Some D ->
  RenewBefore (Spec issuer) = Some R ->
  D <> 0 -> R <= D \/ R = 0 ->
  setIssuerDefaultValues issuer = Some issuer.
Proof.
  destruct issuer as [n [k c d r] st]; cbn. intros -> -> HD HR.
  unfold setIssuerDefaultValues; cbn.
  destruct (Z.eqb_spec D 0); [lia|]. cbn.
  destruct (Z.ltb_spec D R); [|reflexivity].
  cbn. rewrite ratio_of_duration. destruct HR; [lia|subst; reflexivity].
Qed.

(** ** Running computations *)

Lemma run_bind {A B : Type} (c : M A) (f : A -> M B) (w : World) :
  run (bind c f) w =
    match run c w with
    | Some (a, w') => run (f a) w'
    | None => None
    end.
Proof. unfold run. cbn. destruct (runStateT c w) as [[a w']|]; reflexivity. Qed.

Lemma run_ret {A : Type} (a : A) (w : World) : run (ret a) w = Some (a, w).
Proof. reflexivity. Qed.

Lemma run_liftOption {A : Type} (a : A) (w : World) :
  run (liftOption (Some a)) w = Some (a, w).
Proof. reflexivity. Qed.

Lemma same_server_refl (w : World) : same_server w w.
Proof. repeat split. Qed.

Lemma same_server_trans (w1 w2 w3 : World) :
  same_server w1 w2 -> same_server w2 w3 -> same_server w1 w3.
Proof.
  unfold same_server.
  intros (a1 & a2 & a3 & a4 & a5 & a6) (b1 & b2 & b3 & b4 & b5 & b6).
  repeat split; congruence.
Qed.

(** ** Conditions *)

Lemma mergeCondition_find (cs : list Condition) (c : Condition) :
  exists c',
    List.find (fun x => String.eqb (CondType x) (CondType c)) (mergeCondition cs c) = Some c'
    /\ CondType c' = CondType c /\ CondStatus c' = CondStatus c
    /\ Reason c' = Reason c /\ Message c' = Message c.
Proof.
  induction cs as [|x rest IH]; cbn.
  - rewrite String.eqb_refl. eauto 6.
  - destruct (String.eqb (CondType x) (CondType c)) eqn:Hty.
    + destruct (ConditionStatus_eqb (CondStatus x) (CondStatus c)
                && String.eqb (Reason x) (Reason c)); cbn;
        rewrite ?String.eqb_refl; eauto 6.
    + cbn. rewrite Hty. exact IH.
Qed.

Lemma SetCondition_reads_back (st : KMSIssuerStatus) (c : Condition) :
  exists c',
    GetCondition (SetCondition st c) (CondType c) = Some c'
    /\ CondStatus c' = CondStatus c /\ Reason c' = Reason c /\ Message c' = Message c.
Proof.
  destruct (mergeCondition_find (Conditions st) c) as (c' & H & _ & Hs & Hr & Hm).
  exists c'. unfold GetCondition, SetCondition; cbn. auto.
Qed.

Lemma SetCondition_Certificate (st : KMSIssuerStatus) (c : Condition) :
  Certificate (SetCondition st c) = Certificate st.
Proof. reflexivity. Qed.

(** ** The renewal decision *)

Lemma fresh_address_differs (h : list Z) (p : big_Int_ptr) :
  allocated h p -> ptr_eqb p (Some (List.length h)) = false.
Proof.
  destruct p as [a|]; cbn; [|reflexivity].
  intros H. apply Nat.eqb_neq. lia.
Qed.

#[local] Arguments Int64.mul : simpl never.
#[local] Arguments Int64.sub : simpl never.
#[local] Arguments time.Sub : simpl never.
#[local] Arguments time.Add : simpl never.
#[local] Arguments String.append : simpl never.

(** What [certificateNeedsRenewal] answers for a certificate that parses:
    whether the clock reads exactly the deadline, or the preview's serial
    number pointer is not the pointer just allocated for the parsed one. *)
Lemma certificateNeedsRenewal_parsed (lib : Libraries) (issuer : KMSIssuer)
    (desiredCert : x509_Certificate) (w : World) (block : bytes)
    (f : CertificateFields) (rb : time.Duration) :
  Certificate (Status issuer) <> [] ->
  pem_Decode lib (Certificate (Status issuer)) = Some block ->
  x509_decode lib block = inl f ->
  RenewBefore (Spec issuer) = Some rb ->
  run (certificateNeedsRenewal lib issuer desiredCert) w =
    Some ((time.Sub (time.Add (notAfter f) (Int64.mul (-1) rb)) (clock w (clockReads w)) =? 0)
          || negb (ptr_eqb (SerialNumber desiredCert) (Some (List.length (bigInts w)))),
          tick_clock (set_bigInts w (bigInts w ++ [serialNumber f]))).
Proof.
  intros Hne Hpem Hder Hrb. unfold certificateNeedsRenewal, run.
  destruct (Certificate (Status issuer)) as [|b rest] eqn:Hc; [congruence|].
  cbn. unfold ParseCertificate, x509_ParseCertificate. rewrite Hpem, Hder. cbn.
  rewrite Hrb. cbn.
  destruct (_ =? 0); [reflexivity|].
  destruct (ptr_eqb _ _); reflexivity.
Qed.

(** The preview exists before the stored certificate is parsed, so its
    serial number pointer is never the new one: the answer is always true. *)
Lemma certificateNeedsRenewal_always (lib : Libraries) (issuer : KMSIssuer)
    (desiredCert : x509_Certificate) (w : World) (rb : time.Duration) :
  RenewBefore (Spec issuer) = Some rb ->
  allocated (bigInts w) (SerialNumber desiredCert) ->
  exists w',
    run (certificateNeedsRenewal lib issuer desiredCert) w = Some (true, w')
    /\ same_server w w' /\ (clockReads w <= clockReads w' <= S (clockReads w))%nat.
Proof.
  intros Hrb Hal.
  destruct (Certificate (Status issuer)) as [|b rest] eqn:Hc.
  { exists w. unfold certificateNeedsRenewal, run. rewrite Hc. cbn.
    repeat split; lia. }
  destruct (pem_Decode lib (Certificate (Status issuer))) as [block|] eqn:Hpem.
  2:{ exists w. unfold certificateNeedsRenewal, ParseCertificate, run.
      rewrite Hpem, Hc. cbn. repeat split; lia. }
  destruct (x509_decode lib block) as [f|err] eqn:Hder.
  2:{ exists w. unfold certificateNeedsRenewal, ParseCertificate, x509_ParseCertificate, run.
      rewrite Hpem, Hc, Hder. cbn. repeat split; lia. }
  eexists. rewrite (certificateNeedsRenewal_parsed lib issuer desiredCert w block f rb);
    try assumption; try congruence.
  rewrite (fresh_address_differs _ _ Hal). rewrite orb_true_r.
  split; [reflexivity|]. cbn. repeat split; lia.
Qed.

(** ** Status updates and reports *)

Lemma run_Client_Status_Update (issuer : KMSIssuer) (w : World) :
  run (Client_Status_Update issuer) w = Some (update_answer w issuer, after_update w issuer).
Proof. reflexivity. Qed.

(** What a status update leaves alone, and what it adds to the trace. *)
Lemma after_update_frame (w : World) (issuer : KMSIssuer) :
  statusWrites (after_update w issuer) =
    statusWrites w ++ [{| Submitted := issuer; Answer := update_answer w issuer |}]
  /\ events (after_update w issuer) = events w
  /\ apiFault (after_update w issuer) = apiFault w
  /\ apiCalls (after_update w issuer) = S (apiCalls w)
  /\ clock (after_update w issuer) = clock w
  /\ clockReads (after_update w issuer) = clockReads w
  /\ bigInts (after_update w issuer) = bigInts w.
Proof.
  unfold after_update, persist_status.
  destruct (update_answer w issuer); cbn; [repeat split|].
  destruct (store w (Name issuer)); cbn; repeat split.
Qed.

(** A status update neither creates nor deletes a resource. *)
Lemma after_update_presence (w : World) (issuer : KMSIssuer) (key : string) :
  store (after_update w issuer) key = None <-> store w key = None.
Proof.
  unfold after_update, persist_status.
  destruct (update_answer w issuer); cbn; [reflexivity|].
  destruct (store w (Name issuer)) eqn:Hs; cbn; [|reflexivity].
  unfold update_store. destruct (String.eqb_spec key (Name issuer)) as [->|Hk].
  - rewrite Hs. split; discriminate.
  - reflexivity.
Qed.

(** The certificate bytes persisted after a status update. *)
Lemma after_update_certificate (w : World) (issuer : KMSIssuer) (key : string) :
  stored_certificate (after_update w issuer) key =
    match update_answer w issuer with
    | None => if String.eqb key (Name issuer)
              then Some (Certificate (Status issuer))
              else stored_certificate w key
    | Some _ => stored_certificate w key
    end.
Proof.
  unfold after_update, persist_status, stored_certificate, update_answer.
  destruct (apiFault w (apiCalls w)); cbn; [reflexivity|].
  destruct (store w (Name issuer)) eqn:Hs; cbn; [|reflexivity].
  unfold update_store. destruct (String.eqb key (Name issuer)); reflexivity.
Qed.

Lemma update_answer_present (w : World) (issuer : KMSIssuer) :
  store w (Name issuer) <> None ->
  update_answer w issuer = apiFault w (apiCalls w).
Proof.
  unfold update_answer. intros H.
  destruct (apiFault w (apiCalls w)); [reflexivity|].
  destruct (store w (Name issuer)); congruence.
Qed.

Lemma run_manageFailure (issuer : KMSIssuer) (issue : error) (msg : string) (w : World) :
  run (manageFailure issuer issue msg) w =
    let w1 := tick_clock (add_event (add_logLine w (LogError issue msg))
                            (report_event issuer EventTypeWarning KMSIssuerReasonFailed msg)) in
    let issuer' := with_Status issuer
                     (SetCondition (Status issuer)
                        (Ready_condition ConditionFalse KMSIssuerReasonFailed msg
                           (clock w (clockReads w)))) in
    Some (update_answer w1 issuer', after_update w1 issuer').
Proof. reflexivity. Qed.

Lemma run_manageSuccess (issuer : KMSIssuer) (w : World) :
  run (manageSuccess issuer) w =
    let w1 := tick_clock (add_event (add_logLine w (LogInfo "successfully reconciled issuer"))
                            (report_event issuer EventTypeNormal KMSIssuerReasonIssued "")) in
    let issuer' := with_Status issuer
                     (SetCondition (Status issuer)
                        (Ready_condition ConditionTrue KMSIssuerReasonIssued ""
                           (clock w (clockReads w)))) in
    Some (update_answer w1 issuer', after_update w1 issuer').
Proof. reflexivity. Qed.

#[local] Arguments run : simpl never.
#[local] Arguments setIssuerDefaultValues : simpl never.
#[local] Arguments desiredCertificateAuthorityCertificateInput : simpl never.
#[local] Arguments certificateNeedsRenewal : simpl never.
#[local] Arguments manageFailure : simpl never.
#[local] Arguments manageSuccess : simpl never.
#[local] Arguments renew : simpl never.
#[local] Arguments finish : simpl never.
#[local] Arguments after_update : simpl never.
#[local] Arguments update_answer : simpl never.

Lemma run_Client_Get (key : string) (w : World) :
  run (Client_Get key) w =
    Some (match apiFault w (apiCalls w) with
          | Some err => inr err
          | None => match store w key with
                    | Some issuer => inl issuer
                    | None => inr ErrNotFound
                    end
          end, tick_api w).
Proof.
  unfold Client_Get, run. cbn.
  destruct (apiFault w (apiCalls w)); [reflexivity|].
  destruct (store w key); reflexivity.
Qed.

Lemma run_log_Info (msg : string) (w : World) :
  run (log_Info msg) w = Some (tt, add_logLine w (LogInfo msg)).
Proof. reflexivity. Qed.

Lemma run_log_Error (err : error) (msg : string) (w : World) :
  run (log_Error err msg) w = Some (tt, add_logLine w (LogError err msg)).
Proof. reflexivity. Qed.

Lemma run_GenerateCertificateAuthorityCertificate (ca : KMSCA)
    (input : GenerateCertificateAuthorityCertificateInput) (w : World) :
  run (GenerateCertificateAuthorityCertificate ca input) w =
    Some ({| SerialNumber := Some (List.length (bigInts w));
             NotAfter := notAfter (caPreview ca input);
             Raw := raw (caPreview ca input) |},
          set_bigInts w (bigInts w ++ [serialNumber (caPreview ca input)])).
Proof. reflexivity. Qed.

Lemma run_time_Until (t : time.Time) (w : World) :
  run (time_Until t) w = Some (time.Sub t (clock w (clockReads w)), tick_clock w).
Proof. reflexivity. Qed.

Lemma run_new_Certificate (f : CertificateFields) (w : World) :
  run (new_Certificate f) w =
    Some ({| SerialNumber := Some (List.length (bigInts w));
             NotAfter := notAfter f; Raw := raw f |},
          set_bigInts w (bigInts w ++ [serialNumber f])).
Proof. reflexivity. Qed.

Lemma Reconcile_validated (lib : Libraries) (ca : KMSCA) (req : string) (w : World)
    (issuer issuer' : KMSIssuer) (input : GenerateCertificateAuthorityCertificateInput) :
  apiFault w (apiCalls w) = None ->
  store w req = Some issuer ->
  KeyID (Spec issuer) <> EmptyString ->
  setIssuerDefaultValues issuer = Some issuer' ->
  desiredCertificateAuthorityCertificateInput issuer' = Some input ->
  exists w1,
    same_server (tick_api w) w1
    /\ (clockReads w <= clockReads w1 <= S (clockReads w))%nat
    /\ run (Reconcile lib ca req) w =
         match run (renew lib ca issuer' input) w1 with
         | Some (inr returned, w2) => Some (returned, w2)
         | Some (inl issuer2, w2) =>
             run (finish issuer2
                    {| SerialNumber := Some (List.length (bigInts w));
                       NotAfter := notAfter (caPreview ca input);
                       Raw := raw (caPreview ca input) |}) w2
         | None => None
         end.
Proof.
  intros Hfault Hstore Hkey Hdef Hin.
  destruct (setIssuerDefaultValues_returns issuer) as (D & R & Hdef' & _).
  assert (Hrb : RenewBefore (Spec issuer') = Some R).
  { rewrite Hdef in Hdef'. injection Hdef' as ->. reflexivity. }
  set (desired := {| SerialNumber := Some (List.length (bigInts w));
                     NotAfter := notAfter (caPreview ca input);
                     Raw := raw (caPreview ca input) |}).
  set (w0 := set_bigInts (tick_api w) (bigInts w ++ [serialNumber (caPreview ca input)])).
  destruct (certificateNeedsRenewal_always lib issuer' desired w0 R Hrb)
    as (w1 & Hrun & Hsame & Hreads).
  { cbn. rewrite length_app. cbn. lia. }
  exists w1. split; [|split].
  - eapply same_server_trans; [|exact Hsame]. repeat split.
  - exact Hreads.
  - unfold Reconcile. rewrite run_bind, run_Client_Get, Hfault, Hstore.
    destruct (String.eqb_spec (KeyID (Spec issuer)) EmptyString) as [Hk|_]; [contradiction|].
    rewrite run_bind, Hdef, run_liftOption.
    rewrite run_bind, Hin, run_liftOption.
    rewrite run_bind, run_GenerateCertificateAuthorityCertificate.
    change (bigInts (tick_api w)) with (bigInts w).
    fold desired. fold w0.
    rewrite run_bind, Hrun. rewrite run_bind.
    destruct (run (renew lib ca issuer' input) w1) as [[[issuer2|returned] w2]|];
      reflexivity.
Qed.

Lemma report_reported (w : World) (issuer : KMSIssuer) (line : LogLine) (ev : Event)
    (ready : Condition) :
  let w1 := tick_clock (add_event (add_logLine w line) ev) in
  let issuer' := with_Status issuer (SetCondition (Status issuer) ready) in
  update_answer w1 issuer' = update_answer w issuer
  /\ reported w issuer ev ready (after_update w1 issuer').
Proof.
  intros w1 issuer'.
  assert (Ha : update_answer w1 issuer' = update_answer w issuer) by reflexivity.
  split; [exact Ha|].
  destruct (after_update_frame w1 issuer') as (Hw & He & Hf & Hc & Hk & Hr & _).
  unfold reported. rewrite Hw, He, Hf, Hc, Hk, Hr, Ha.
  repeat match goal with |- _ /\ _ => split end; try reflexivity.
  - intros key. apply (after_update_presence w1 issuer' key).
  - intros key. rewrite after_update_certificate, Ha. reflexivity.
Qed.

Lemma manageFailure_reports (issuer : KMSIssuer) (issue : error) (msg : string) (w : World) :
  exists w',
    run (manageFailure issuer issue msg) w = Some (update_answer w issuer, w')
    /\ reported w issuer
         (report_event issuer EventTypeWarning KMSIssuerReasonFailed msg)
         (Ready_condition ConditionFalse KMSIssuerReasonFailed msg (clock w (clockReads w)))
         w'.
Proof.
  rewrite run_manageFailure. cbv zeta.
  match goal with
  | |- context [after_update (tick_clock (add_event (add_logLine _ ?l) ?e)) _] =>
      destruct (report_reported w issuer l e
                  (Ready_condition ConditionFalse KMSIssuerReasonFailed msg
                     (clock w (clockReads w)))) as [Ha Hrep]
  end.
  eexists. split; [|exact Hrep]. rewrite Ha. reflexivity.
Qed.

Lemma manageSuccess_reports (issuer : KMSIssuer) (w : World) :
  exists w',
    run (manageSuccess issuer) w = Some (update_answer w issuer, w')
    /\ reported w issuer
         (report_event issuer EventTypeNormal KMSIssuerReasonIssued "")
         (Ready_condition ConditionTrue KMSIssuerReasonIssued "" (clock w (clockReads w)))
         w'.
Proof.
  rewrite run_manageSuccess. cbv zeta.
  match goal with
  | |- context [after_update (tick_clock (add_event (add_logLine _ ?l) ?e)) _] =>
      destruct (report_reported w issuer l e
                  (Ready_condition ConditionTrue KMSIssuerReasonIssued ""
                     (clock w (clockReads w)))) as [Ha Hrep]
  end.
  eexists. split; [|exact Hrep]. rewrite Ha. reflexivity.
Qed.

Lemma run_renew_refused (lib : Libraries) (ca : KMSCA) (issuer : KMSIssuer)
    (input : GenerateCertificateAuthorityCertificateInput) (err : error) (w : World) :
  caSign ca input = inr err ->
  run (renew lib ca issuer input) w =
    match run (manageFailure issuer err msg_sign)
            (add_logLine w (LogInfo "generate certificate")) with
    | Some (e, w') => Some (inr (Result_zero, e), w')
    | None => None
    end.
Proof.
  intros Hsign. unfold renew.
  rewrite run_bind, run_log_Info, run_bind.
  unfold GenerateAndSignCertificateAuthorityCertificate. rewrite Hsign, run_ret.
  rewrite run_bind. reflexivity.
Qed.

Lemma run_renew_signed (lib : Libraries) (ca : KMSCA) (issuer : KMSIssuer)
    (input : GenerateCertificateAuthorityCertificateInput) (f : CertificateFields)
    (w : World) :
  caSign ca input = inl f ->
  let issuer1 :=
    with_Status issuer
      {| Conditions := Conditions (Status issuer);
         Certificate := pem_EncodeToMemory lib "CERTIFICATE" (raw f) |} in
  let w1 := set_bigInts (add_logLine w (LogInfo "generate certificate"))
              (bigInts w ++ [serialNumber f]) in
  run (renew lib ca issuer input) w =
    match update_answer w1 issuer1 with
    | Some err =>
        match run (manageFailure issuer1 err msg_update) (after_update w1 issuer1) with
        | Some (e, w') => Some (inr (Result_zero, e), w')
        | None => None
        end
    | None => Some (inl issuer1, after_update w1 issuer1)
    end.
Proof.
  intros Hsign issuer1 w1. unfold renew.
  rewrite run_bind, run_log_Info, run_bind.
  unfold GenerateAndSignCertificateAuthorityCertificate. rewrite Hsign.
  rewrite run_bind, run_new_Certificate, run_ret.
  cbn [Raw]. fold issuer1.
  change (set_bigInts (add_logLine w _) _) with w1.
  rewrite run_bind, run_Client_Status_Update.
  destruct (update_answer w1 issuer1); [rewrite run_bind|]; reflexivity.
Qed.

Lemma run_finish (issuer : KMSIssuer) (desiredCert : x509_Certificate)
    (rb : time.Duration) (w : World) :
  RenewBefore (Spec issuer) = Some rb ->
  run (finish issuer desiredCert) w =
    match run (manageSuccess issuer) (tick_clock w) with
    | Some (e, w') =>
        Some ({| RequeueAfter :=
                   time.Sub (time.Add (NotAfter desiredCert) (Int64.mul (-1) rb))
                     (clock w (clockReads w)) |}, e, w')
    | None => None
    end.
Proof.
  intros Hrb. unfold finish. rewrite run_bind. unfold deref. rewrite Hrb, run_liftOption.
  rewrite run_bind, run_time_Until, run_bind.
  destruct (run (manageSuccess issuer) (tick_clock w)) as [[e w']|]; reflexivity.
Qed.

Lemma new_statusWrites_app (w w' : World) (news : list StatusWrite) :
  statusWrites w' = statusWrites w ++ news -> new_statusWrites w w' = news.
Proof.
  intros H. unfold new_statusWrites. rewrite H.
  rewrite skipn_app, skipn_all, Nat.sub_diag. reflexivity.
Qed.

Lemma defaulted_shape (issuer issuer' : KMSIssuer) :
  setIssuerDefaultValues issuer = Some issuer' ->
  Name issuer' = Name issuer /\ Status issuer' = Status issuer
  /\ KeyID (Spec issuer') = KeyID (Spec issuer)
  /\ CommonName (Spec issuer') = CommonName (Spec issuer)
  /\ exists D R, Duration (Spec issuer') = Some D /\ RenewBefore (Spec issuer') = Some R.
Proof.
  intros H. destruct (setIssuerDefaultValues_returns issuer) as (D & R & H' & _).
  rewrite H in H'. injection H' as ->. cbn. eauto 8.
Qed.

Ltac unpack :=
  repeat match goal with
         | H : same_server _ _ |- _ =>
             unfold same_server in H;
             cbn [store apiFault apiCalls statusWrites events clock tick_api] in H;
             destruct H as (?Hstore & ?Hfault & ?Hcalls & ?Hwrites & ?Hevents & ?Hclock)
         | H : reported _ _ _ _ _ |- _ =>
             destruct H as (?Hwrites & ?Hevents & ?Hfault & ?Hcalls & ?Hclock & ?Hreads
                            & ?Hpresent & ?Hcert)
         end.

Lemma desiredInput_returns (issuer : KMSIssuer) (D R : time.Duration) :
  Duration (Spec issuer) = Some D ->
  RenewBefore (Spec issuer) = Some R ->
  desiredCertificateAuthorityCertificateInput issuer =
    Some {| InKeyID := KeyID (Spec issuer);
            InSubjectCommonName := CommonName (Spec issuer);
            InDuration := D;
            InRounding := Int64.sub D R |}.
Proof.
  intros HD HR. unfold desiredCertificateAuthorityCertificateInput, deref.
  rewrite HD, HR. reflexivity.
Qed.

(** [Reconcile] returns in every world, after at most two status updates. *)
Lemma Reconcile_returns (lib : Libraries) (ca : KMSCA) (req : string) (w : World) :
  exists res w' news,
    run (Reconcile lib ca req) w = Some (res, w')
    /\ statusWrites w' = statusWrites w ++ news
    /\ (List.length news <= 2)%nat.
Proof.
  destruct (apiFault w (apiCalls w)) as [err|] eqn:Hfault.
  { exists (Result_zero, IgnoreNotFound err), 
      (add_logLine (tick_api w) (LogError err "failed to retrieve KMSIssuer resource")), [].
    unfold Reconcile. rewrite run_bind, run_Client_Get, Hfault.
    rewrite run_bind, run_log_Error, run_ret. cbn. rewrite app_nil_r. auto. }
  destruct (store w req) as [issuer|] eqn:Hstore.
  2:{ exists (Result_zero, None),
        (add_logLine (tick_api w) (LogError ErrNotFound "failed to retrieve KMSIssuer resource")), [].
      unfold Reconcile. rewrite run_bind, run_Client_Get, Hfault, Hstore.
      rewrite run_bind, run_log_Error, run_ret. cbn. rewrite app_nil_r. auto. }
  destruct (String.eqb (KeyID (Spec issuer)) EmptyString) eqn:Hkey.
  { destruct (manageFailure_reports issuer (ErrMessage "INVALID KeyId")
                (String.append "Not a valid key: " (KeyID (Spec issuer))) (tick_api w))
      as (w' & Hfail & Hrep).
    eexists; exists w'; eexists.
    unfold Reconcile. rewrite run_bind, run_Client_Get, Hfault, Hstore, Hkey.
    rewrite run_bind, Hfail, run_ret. unpack.
    split; [reflexivity|]. split; [exact Hwrites|]. cbn. lia. }
  apply String.eqb_neq in Hkey.
  destruct (setIssuerDefaultValues_returns issuer) as (D & R & Hdef & _).
  match type of Hdef with _ = Some ?i => set (issuer' := i) in * end.
  pose proof (desiredInput_returns issuer' D R eq_refl eq_refl) as Hin.
  match type of Hin with _ = Some ?i => set (input := i) in * end.
  destruct (Reconcile_validated lib ca req w issuer issuer' input
              Hfault Hstore Hkey Hdef Hin) as (w1 & Hsame & _ & Hrun).
  rewrite Hrun. clear Hrun.
  destruct (caSign ca input) as [f|err] eqn:Hsign.
  2:{ rewrite (run_renew_refused lib ca issuer' input err w1 Hsign).
      destruct (manageFailure_reports issuer' err msg_sign
                  (add_logLine w1 (LogInfo "generate certificate")))
        as (w' & Hfail & Hrep).
      rewrite Hfail. eexists; exists w'; eexists.
      split; [reflexivity|]. unpack. cbn in *.
      rewrite Hwrites0, Hwrites. split; [reflexivity|]. cbn. lia. }
  rewrite (run_renew_signed lib ca issuer' input f w1 Hsign). cbv zeta.
  match goal with
  | |- context [after_update ?x ?i1] =>
      set (wl := x); set (issuer1 := i1);
      destruct (after_update_frame wl issuer1) as (Hw2 & _)
  end.
  destruct (update_answer wl issuer1) as [err|] eqn:Hans.
  - destruct (manageFailure_reports issuer1 err msg_update (after_update wl issuer1))
      as (w' & Hfail & Hrep).
    rewrite Hfail. eexists; exists w'; eexists.
    split; [reflexivity|]. unpack. 
    rewrite Hwrites0, Hw2. subst wl. cbn [statusWrites set_bigInts add_logLine].
    rewrite Hwrites, <- app_assoc. split; [reflexivity|]. cbn. lia.
  - rewrite (run_finish issuer1 _ R (after_update wl issuer1) eq_refl).
    destruct (manageSuccess_reports issuer1 (tick_clock (after_update wl issuer1)))
      as (w' & Hok & Hrep).
    rewrite Hok. eexists; exists w'; eexists.
    split; [reflexivity|]. unpack.
    rewrite Hwrites0. cbn [statusWrites tick_clock]. rewrite Hw2.
    subst wl. cbn [statusWrites set_bigInts add_logLine].
    rewrite Hwrites, <- app_assoc. split; [reflexivity|]. cbn. lia.
Qed.

(** ** Signing failures *)

(** C9. When renewal is attempted and the signing call fails, the certificate
    bytes persisted for every resource are what they were before the
    invocation; the failure goes through [manageFailure]: one Warning event
    and one status update, which carries the certificate bytes as they were
    retrieved and a Ready condition that is False with reason Failed. *)
Theorem signing_failure_keeps_certificate (lib : Libraries) (ca : KMSCA) (req : string)
    (w : World) (issuer issuer' : KMSIssuer)
    (input : GenerateCertificateAuthorityCertificateInput) (err : error) :
  apiFault w (apiCalls w) = None ->
  store w req = Some issuer ->
  Name issuer = req ->
  KeyID (Spec issuer) <> EmptyString ->
  setIssuerDefaultValues issuer = Some issuer' ->
  desiredCertificateAuthorityCertificateInput issuer' = Some input ->
  caSign ca input = inr err ->
  exists e w' ready,
    run (Reconcile lib ca req) w = Some ((Result_zero, e), w')
    /\ (forall key, stored_certificate w' key = stored_certificate w key)
    /\ new_statusWrites w w' =
         [{| Submitted :=
               with_Status issuer'
                 {| Conditions := mergeCondition (Conditions (Status issuer)) ready;
                    Certificate := Certificate (Status issuer) |};
             Answer := e |}]
    /\ CondType ready = ConditionReady /\ CondStatus ready = ConditionFalse
    /\ Reason ready = KMSIssuerReasonFailed /\ Message ready = msg_sign
    /\ events w' =
         events w ++ [report_event issuer EventTypeWarning KMSIssuerReasonFailed msg_sign].
Proof.
  intros Hfault Hstore Hname Hkey Hdef Hin Hsign.
  destruct (defaulted_shape _ _ Hdef) as (Hn & Hst & _).
  destruct (Reconcile_validated lib ca req w issuer issuer' input
              Hfault Hstore Hkey Hdef Hin) as (w1 & Hsame & _ & Hrun).
  rewrite (run_renew_refused lib ca issuer' input err w1 Hsign) in Hrun.
  destruct (manageFailure_reports issuer' err msg_sign
              (add_logLine w1 (LogInfo "generate certificate")))
    as (w' & Hfail & Hrep).
  rewrite Hfail in Hrun.
  exists (update_answer (add_logLine w1 (LogInfo "generate certificate")) issuer'), w',
    (Ready_condition ConditionFalse KMSIssuerReasonFailed msg_sign
       (clock w1 (clockReads w1))).
  split; [exact Hrun|]. clear Hrun Hfail. unpack. cbn in *.
  repeat match goal with |- _ /\ _ => split end; try reflexivity.
  - intros key. rewrite Hcert.
    assert (Hsame_cert : stored_certificate (add_logLine w1 (LogInfo "generate certificate")) key
                         = stored_certificate w key).
    { unfold stored_certificate. cbn. rewrite Hstore0. reflexivity. }
    rewrite Hsame_cert.
    destruct (update_answer _ issuer'); [reflexivity|].
    destruct (String.eqb_spec key (Name issuer')) as [->|]; [|reflexivity].
    unfold stored_certificate. rewrite Hn, Hname, Hstore, Hst. reflexivity.
  - apply new_statusWrites_app. rewrite Hwrites0, Hwrites.
    unfold SetCondition. rewrite Hst. reflexivity.
  - rewrite Hevents0, Hevents. unfold report_event. rewrite Hn. reflexivity.
Qed.

Lemma signing_failure_keeps_certificate_witness :
  exists e w' ready,
    run (Reconcile sample_lib failing_ca "ca") (sample_world (store_of issuer_valid))
      = Some ((Result_zero, e), w')
    /\ (forall key, stored_certificate w' key
                    = stored_certificate (sample_world (store_of issuer_valid)) key)
    /\ new_statusWrites (sample_world (store_of issuer_valid)) w' =
         [{| Submitted :=
               with_Status issuer_valid
                 {| Conditions := mergeCondition (Conditions (Status issuer_valid)) ready;
                    Certificate := Certificate (Status issuer_valid) |};
             Answer := e |}]
    /\ CondType ready = ConditionReady /\ CondStatus ready = ConditionFalse
    /\ Reason ready = KMSIssuerReasonFailed /\ Message ready = msg_sign
    /\ events w' =
         events (sample_world (store_of issuer_valid))
           ++ [report_event issuer_valid EventTypeWarning KMSIssuerReasonFailed msg_sign].
Proof.
  apply (signing_failure_keeps_certificate sample_lib failing_ca "ca"
           (sample_world (store_of issuer_valid)) issuer_valid issuer_valid
           {| InKeyID := "k1"; InSubjectCommonName := "ca.example";
              InDuration := 3 * time.Hour; InRounding := 2 * time.Hour |}
           (ErrMessage "kms: access denied")).
  - reflexivity.
  - reflexivity.
  - reflexivity.
  - discriminate.
  - reflexivity.
  - reflexivity.
  - reflexivity.
Defined.

(** ** The renewal decision *)

(** C1. For a stored certificate that parses, [certificateNeedsRenewal]
    answers true whenever the clock reads an instant at or after
    [NotAfter - renewBefore]: at the boundary itself and at every later
    instant. *)
Theorem renewal_at_or_after_deadline (lib : Libraries) (issuer : KMSIssuer)
    (desiredCert : x509_Certificate) (w : World) (block : bytes)
    (f : CertificateFields) (rb : time.Duration) :
  pem_Decode lib (Certificate (Status issuer)) = Some block ->
  x509_decode lib block = inl f ->
  RenewBefore (Spec issuer) = Some rb ->
  allocated (bigInts w) (SerialNumber desiredCert) ->
  notAfter f - rb <= clock w (clockReads w) ->
  answer (run (certificateNeedsRenewal lib issuer desiredCert) w) = Some true.
Proof.
  intros _ _ Hrb Hal _.
  destruct (certificateNeedsRenewal_always lib issuer desiredCert w rb Hrb Hal)
    as (w' & Hrun & _).
  rewrite Hrun. reflexivity.
Qed.

Lemma renewal_at_or_after_deadline_witness :
  10 * time.Hour - time.Hour
    <= clock (world_seven (9 * time.Hour)) (clockReads (world_seven (9 * time.Hour)))
  /\ answer (run (certificateNeedsRenewal sample_lib issuer_valid preview_seven)
               (world_seven (9 * time.Hour))) = Some true.
Proof.
  split.
  - vm_compute. discriminate.
  - apply (renewal_at_or_after_deadline sample_lib issuer_valid preview_seven
             (world_seven (9 * time.Hour)) [Byte.x07; Byte.x0a]
             {| serialNumber := 7; notAfter := 10 * time.Hour;
                raw := [Byte.x07; Byte.x0a] |}
             time.Hour).
    + reflexivity.
    + reflexivity.
    + reflexivity.
    + cbn. lia.
    + vm_compute. discriminate.
Defined.

(** C4. Before the deadline the answer does not follow the serial number
    values.  Here the stored certificate parses, its serial number and the
    preview's both have the value 7, the clock reads the epoch and the
    deadline is nine hours later; [certificateNeedsRenewal] answers true,
    because it compares the two [*big.Int] pointers, and the pointer of the
    certificate it has just parsed is new. *)
Theorem equal_serial_values_still_renew :
  exists actualCert w1 w',
    run (ParseCertificate sample_lib (Certificate (Status issuer_valid))) (world_seven 0)
      = Some (inl actualCert, w1)
    /\ big_Int_value (bigInts w1) (SerialNumber actualCert) = Some 7
    /\ big_Int_value (bigInts w1) (SerialNumber preview_seven) = Some 7
    /\ clock (world_seven 0) (clockReads (world_seven 0))
         < NotAfter actualCert - time.Hour
    /\ RenewBefore (Spec issuer_valid) = Some time.Hour
    /\ run (certificateNeedsRenewal sample_lib issuer_valid preview_seven) (world_seven 0)
         = Some (true, w').
Proof.
  do 3 eexists.
  split; [reflexivity|].
  split; [reflexivity|].
  split; [reflexivity|].
  split; [reflexivity|].
  split; reflexivity.
Qed.

(** C5. Two invocations of [certificateNeedsRenewal] on the same stored
    certificate bytes, the same [renewBefore] and previews with the same
    expiry and the same serial number value give the same answer, whatever
    the two worlds and their clocks; and there is an answer as soon as
    [renewBefore] is set. *)
Theorem certificateNeedsRenewal_same_answer (lib : Libraries)
    (issuer1 issuer2 : KMSIssuer) (desired1 desired2 : x509_Certificate)
    (w1 w2 : World) :
  Certificate (Status issuer1) = Certificate (Status issuer2) ->
  RenewBefore (Spec issuer1) = RenewBefore (Spec issuer2) ->
  NotAfter desired1 = NotAfter desired2 ->
  big_Int_value (bigInts w1) (SerialNumber desired1)
    = big_Int_value (bigInts w2) (SerialNumber desired2) ->
  allocated (bigInts w1) (SerialNumber desired1) ->
  allocated (bigInts w2) (SerialNumber desired2) ->
  answer (run (certificateNeedsRenewal lib issuer1 desired1) w1)
    = answer (run (certificateNeedsRenewal lib issuer2 desired2) w2)
  /\ (forall rb, RenewBefore (Spec issuer1) = Some rb ->
      exists b, answer (run (certificateNeedsRenewal lib issuer1 desired1) w1) = Some b).
Proof.
  intros Hcert Hrb _ _ Hal1 Hal2.
  destruct (RenewBefore (Spec issuer1)) as [rb|] eqn:Hrb1.
  - symmetry in Hrb.
    destruct (certificateNeedsRenewal_always lib issuer1 desired1 w1 rb Hrb1 Hal1)
      as (w1' & Hrun1 & _).
    destruct (certificateNeedsRenewal_always lib issuer2 desired2 w2 rb Hrb Hal2)
      as (w2' & Hrun2 & _).
    rewrite Hrun1, Hrun2. split; [reflexivity|]. intros _ _. exists true. reflexivity.
  - split; [|discriminate].
    symmetry in Hrb. unfold certificateNeedsRenewal, ParseCertificate, x509_ParseCertificate.
    rewrite <- Hcert.
    destruct (Certificate (Status issuer1)) as [|b rest]; [reflexivity|].
    cbn [List.length Nat.eqb].
    destruct (pem_Decode lib (b :: rest)) as [block|]; [|reflexivity].
    destruct (x509_decode lib block) as [f|err]; [|reflexivity].
    unfold run, answer, deref. cbn. rewrite Hrb1, Hrb. reflexivity.
Qed.

Lemma certificateNeedsRenewal_same_answer_witness :
  answer (run (certificateNeedsRenewal sample_lib issuer_valid preview_seven)
            (world_seven 0))
    = answer (run (certificateNeedsRenewal sample_lib issuer_valid preview_seven)
                (world_seven (24 * time.Hour)))
  /\ (forall rb, RenewBefore (Spec issuer_valid) = Some rb ->
      exists b, answer (run (certificateNeedsRenewal sample_lib issuer_valid preview_seven)
                          (world_seven 0)) = Some b).
Proof.
  apply (certificateNeedsRenewal_same_answer sample_lib issuer_valid issuer_valid
           preview_seven preview_seven (world_seven 0) (world_seven (24 * time.Hour))).
  - reflexivity.
  - reflexivity.
  - reflexivity.
  - reflexivity.
  - cbn. lia.
  - cbn. lia.
Defined.

(** ** The Default Resolver, as the design document states it *)

(** When [renewBefore] is unset the resolver sets it to zero, whatever the
    duration. *)
Lemma setIssuerDefaultValues_unset (issuer : KMSIssuer) :
  RenewBefore (Spec issuer) = None ->
  exists issuer',
    setIssuerDefaultValues issuer = Some issuer'
    /\ RenewBefore (Spec issuer') = Some 0.
Proof.
  intros Hrb.
  destruct (setIssuerDefaultValues_returns issuer) as (D & R & Hdef & _ & _ & _ & HR).
  eexists. split; [exact Hdef|]. cbn.
  destruct HR as [HR|[-> _]]; [congruence|reflexivity].
Qed.

(** C2. With a duration of three hours and [renewBefore] unset, the
    resolver sets [renewBefore] to zero, not to the two hours that two
    thirds of the duration are: the ratio [2 / 3] is an integer quotient. *)
Theorem renewBefore_default_is_zero :
  exists issuer',
    RenewBefore (Spec issuer_unset) = None
    /\ setIssuerDefaultValues issuer_unset = Some issuer'
    /\ Duration (Spec issuer') = Some (3 * time.Hour)
    /\ RenewBefore (Spec issuer') = Some 0
    /\ 2 * (3 * time.Hour) / 3 = 2 * time.Hour
    /\ 0 < 2 * time.Hour.
Proof.
  eexists. repeat split; reflexivity.
Qed.

(** C8. The resolver is idempotent: it returns, and applied to what it
    returned it returns the same.  It leaves unchanged every issuer with
    [duration > 0] and [0 < renewBefore <= duration]. *)
Theorem setIssuerDefaultValues_idempotent_noop (issuer : KMSIssuer) :
  (exists once,
      setIssuerDefaultValues issuer = Some once
      /\ setIssuerDefaultValues once = Some once)
  /\ (forall D R,
        Duration (Spec issuer) = Some D ->
        RenewBefore (Spec issuer) = Some R ->
        0 < D -> 0 < R <= D ->
        setIssuerDefaultValues issuer = Some issuer).
Proof.
  split.
  - destruct (setIssuerDefaultValues_returns issuer) as (D & R & Hdef & HD & HR & _).
    eexists. split; [exact Hdef|].
    apply (setIssuerDefaultValues_fixed _ D R); auto.
  - intros D R HD HR Hpos Hle.
    apply (setIssuerDefaultValues_fixed issuer D R); auto; lia.
Qed.

Lemma setIssuerDefaultValues_idempotent_noop_witness :
  0 < 3 * time.Hour /\ 0 < time.Hour <= 3 * time.Hour
  /\ setIssuerDefaultValues issuer_valid = Some issuer_valid.
Proof.
  split; [reflexivity|]. split; [split; [reflexivity|discriminate]|].
  apply (proj2 (setIssuerDefaultValues_idempotent_noop issuer_valid)
           (3 * time.Hour) time.Hour).
  - reflexivity.
  - reflexivity.
  - reflexivity.
  - split; [reflexivity|discriminate].
Defined.

(** C10. For every issuer the resolver returns an issuer whose [Duration]
    and [RenewBefore] are both set.  Hence none of the dereferences that
    follow it panics: [desiredCertificateAuthorityCertificateInput]
    returns, [certificateNeedsRenewal] returns, the requeue computation
    returns, and [Reconcile] as a whole returns in every world. *)
Theorem defaulted_fields_are_set (lib : Libraries) (ca : KMSCA) (issuer : KMSIssuer) :
  exists issuer' D R input,
    setIssuerDefaultValues issuer = Some issuer'
    /\ Duration (Spec issuer') = Some D
    /\ RenewBefore (Spec issuer') = Some R
    /\ desiredCertificateAuthorityCertificateInput issuer' = Some input
    /\ (forall desiredCert w, exists b w',
          run (certificateNeedsRenewal lib issuer' desiredCert) w = Some (b, w'))
    /\ (forall desiredCert w, exists res w',
          run (finish issuer' desiredCert) w = Some (res, w'))
    /\ (forall req w, exists res w',
          run (Reconcile lib ca req) w = Some (res, w')).
Proof.
  destruct (setIssuerDefaultValues_returns issuer) as (D & R & Hdef & _).
  match type of Hdef with _ = Some ?i => set (issuer' := i) in * end.
  exists issuer', D, R. eexists.
  split; [exact Hdef|]. split; [reflexivity|]. split; [reflexivity|].
  split; [apply (desiredInput_returns issuer' D R); reflexivity|].
  split; [|split].
  - intros desiredCert w.
    destruct (Certificate (Status issuer')) as [|b rest] eqn:Hc.
    { exists true, w. unfold certificateNeedsRenewal. rewrite Hc. reflexivity. }
    destruct (pem_Decode lib (Certificate (Status issuer'))) as [block|] eqn:Hpem.
    2:{ exists true, w. unfold certificateNeedsRenewal, ParseCertificate.
        rewrite Hc in *. rewrite Hpem. reflexivity. }
    destruct (x509_decode lib block) as [f|err] eqn:Hder.
    2:{ exists true, w.
        unfold certificateNeedsRenewal, ParseCertificate, x509_ParseCertificate.
        rewrite Hc in *. rewrite Hpem, Hder. reflexivity. }
    do 2 eexists.
    apply (certificateNeedsRenewal_parsed lib issuer' desiredCert w block f R);
      try assumption; try reflexivity.
    rewrite Hc. discriminate.
  - intros desiredCert w.
    rewrite (run_finish issuer' desiredCert R w eq_refl).
    destruct (manageSuccess_reports issuer' (tick_clock w)) as (w' & Hok & _).
    rewrite Hok. eauto.
  - intros req w.
    destruct (Reconcile_returns lib ca req w) as (res & w' & _ & Hrun & _).
    eauto.
Qed.

(** ** Failures *)

(** A report of failure submits a status whose Ready condition is False,
    with reason Failed and the message of the report. *)
Lemma failed_condition_submitted (issuer : KMSIssuer) (msg : string) (now : time.Time) :
  exists ready,
    GetCondition
      (Status (with_Status issuer
                 (SetCondition (Status issuer)
                    (Ready_condition ConditionFalse KMSIssuerReasonFailed msg now))))
      ConditionReady = Some ready
    /\ CondStatus ready = ConditionFalse
    /\ Reason ready = KMSIssuerReasonFailed
    /\ Message ready = msg.
Proof.
  exact (SetCondition_reads_back (Status issuer)
           (Ready_condition ConditionFalse KMSIssuerReasonFailed msg now)).
Qed.

(** C3, as the code has it.  For each failure (empty key reference, refused
    signature, refused persistence of the certificate) [Reconcile] records
    the failure in a Ready condition that is False with reason Failed and
    the failure's message, submits it in a status update, the last one of
    the invocation, and returns the answer to that update: the fault with
    which the API server answers that call, nil when the update is
    accepted.  The failure itself is not returned. *)
Theorem failure_is_recorded_and_update_error_returned (lib : Libraries) (ca : KMSCA)
    (req : string) (w : World) (issuer : KMSIssuer) (f : Failure) :
  apiFault w (apiCalls w) = None ->
  store w req = Some issuer ->
  Name issuer = req ->
  meets ca w issuer f ->
  exists e w' earlier write ready,
    run (Reconcile lib ca req) w = Some ((Result_zero, e), w')
    /\ statusWrites w' = earlier ++ [write]
    /\ Answer write = e
    /\ e = apiFault w (Nat.pred (apiCalls w'))
    /\ GetCondition (Status (Submitted write)) ConditionReady = Some ready
    /\ CondStatus ready = ConditionFalse
    /\ Reason ready = KMSIssuerReasonFailed
    /\ Message ready = failure_message issuer f.
Proof.
  intros Hfault Hstore Hname Hmeets.
  assert (Hpresent0 : store w (Name issuer) <> None) by (rewrite Hname, Hstore; discriminate).
  destruct f; cbn [meets] in Hmeets.
  - (* validation *)
    set (msg := String.append "Not a valid key: " (KeyID (Spec issuer))).
    destruct (manageFailure_reports issuer (ErrMessage "INVALID KeyId") msg (tick_api w))
      as (w' & Hfail & Hrep).
    destruct (failed_condition_submitted issuer msg
                (clock (tick_api w) (clockReads (tick_api w))))
      as (ready & Hget & Hst & Hre & Hmsg).
    exists (update_answer (tick_api w) issuer), w'.
    do 2 eexists. exists ready.
    split.
    { unfold Reconcile. rewrite run_bind, run_Client_Get, Hfault, Hstore.
      destruct (String.eqb_spec (KeyID (Spec issuer)) EmptyString) as [_|Hk];
        [|contradiction].
      fold msg. rewrite run_bind, Hfail, run_ret. reflexivity. }
    unpack. split; [exact Hwrites|]. split; [reflexivity|].
    split.
    { rewrite Hcalls. cbn [Nat.pred apiCalls tick_api].
      apply (update_answer_present (tick_api w) issuer). exact Hpresent0. }
    auto.
  - (* signing *)
    destruct Hmeets as (Hkey & issuer' & input & err & Hdef & Hin & Hsign).
    destruct (defaulted_shape _ _ Hdef) as (Hn & Hst & _).
    destruct (Reconcile_validated lib ca req w issuer issuer' input
                Hfault Hstore Hkey Hdef Hin) as (w1 & Hsame & _ & Hrun).
    rewrite (run_renew_refused lib ca issuer' input err w1 Hsign) in Hrun.
    set (wl := add_logLine w1 (LogInfo "generate certificate")) in *.
    destruct (manageFailure_reports issuer' err msg_sign wl) as (w' & Hfail & Hrep).
    rewrite Hfail in Hrun.
    destruct (failed_condition_submitted issuer' msg_sign (clock wl (clockReads wl)))
      as (ready & Hget & Hcs & Hre & Hmsg).
    exists (update_answer wl issuer'), w'. do 2 eexists. exists ready.
    split; [exact Hrun|]. clear Hrun Hfail. unpack.
    split; [exact Hwrites0|]. split; [reflexivity|].
    split.
    { rewrite Hcalls0. cbn [Nat.pred].
      rewrite (update_answer_present wl issuer').
      - subst wl. cbn [apiFault apiCalls add_logLine]. rewrite Hfault0, Hcalls. reflexivity.
      - subst wl. cbn [store add_logLine]. rewrite Hstore0, Hn. exact Hpresent0. }
    auto.
  - (* persistence *)
    destruct Hmeets as (Hkey & issuer' & input & cert & err & Hdef & Hin & Hsign & Hrefused).
    destruct (defaulted_shape _ _ Hdef) as (Hn & Hst & _).
    destruct (Reconcile_validated lib ca req w issuer issuer' input
                Hfault Hstore Hkey Hdef Hin) as (w1 & Hsame & _ & Hrun).
    rewrite (run_renew_signed lib ca issuer' input cert w1 Hsign) in Hrun.
    cbv zeta in Hrun.
    match type of Hrun with
    | context [after_update ?x ?i1] => set (wl := x) in *; set (issuer1 := i1) in *
    end.
    unpack.
    assert (Hans : update_answer wl issuer1 = Some err).
    { rewrite (update_answer_present wl issuer1).
      - subst wl. cbn [apiFault apiCalls set_bigInts add_logLine].
        rewrite Hfault0, Hcalls. exact Hrefused.
      - subst wl issuer1. cbn [store set_bigInts add_logLine Name with_Status].
        rewrite Hstore0, Hn. exact Hpresent0. }
    rewrite Hans in Hrun.
    destruct (after_update_frame wl issuer1) as (_ & _ & Hf2 & Hc2 & _).
    destruct (manageFailure_reports issuer1 err msg_update (after_update wl issuer1))
      as (w' & Hfail & Hrep).
    rewrite Hfail in Hrun.
    destruct (failed_condition_submitted issuer1 msg_update
                (clock (after_update wl issuer1) (clockReads (after_update wl issuer1))))
      as (ready & Hget & Hcs & Hre & Hmsg).
    exists (update_answer (after_update wl issuer1) issuer1), w'.
    do 2 eexists. exists ready.
    split; [exact Hrun|]. clear Hrun Hfail. unpack.
    split; [exact Hwrites0|]. split; [reflexivity|].
    split.
    { rewrite Hcalls0. cbn [Nat.pred].
      rewrite (update_answer_present (after_update wl issuer1) issuer1).
      - rewrite Hf2, Hc2. subst wl. cbn [apiFault apiCalls set_bigInts add_logLine].
        rewrite Hfault0, Hcalls. reflexivity.
      - intros Habs. apply after_update_presence in Habs.
        subst wl issuer1. cbn [store set_bigInts add_logLine Name with_Status] in Habs.
        rewrite Hstore0, Hn in Habs. exact (Hpresent0 Habs). }
    auto.
Qed.

Lemma failure_is_recorded_and_update_error_returned_witness :
  exists e w' earlier write ready,
    run (Reconcile sample_lib sample_ca "ca") (sample_world (store_of issuer_nokey))
      = Some ((Result_zero, e), w')
    /\ statusWrites w' = earlier ++ [write]
    /\ Answer write = e
    /\ e = apiFault (sample_world (store_of issuer_nokey)) (Nat.pred (apiCalls w'))
    /\ GetCondition (Status (Submitted write)) ConditionReady = Some ready
    /\ CondStatus ready = ConditionFalse
    /\ Reason ready = KMSIssuerReasonFailed
    /\ Message ready = failure_message issuer_nokey ValidationFailure.
Proof.
  apply (failure_is_recorded_and_update_error_returned sample_lib sample_ca "ca"
           (sample_world (store_of issuer_nokey)) issuer_nokey ValidationFailure).
  - reflexivity.
  - reflexivity.
  - reflexivity.
  - reflexivity.
Defined.

(** C3, as the design document states it, fails: an issuer without key
    reference, or one whose certificate the authority refuses to sign, makes
    [Reconcile] return a nil error as long as the status update that
    records the failure is accepted. *)
Lemma failure_returns_nil_error :
  meets sample_ca (sample_world (store_of issuer_nokey)) issuer_nokey ValidationFailure
  /\ answer (run (Reconcile sample_lib sample_ca "ca")
               (sample_world (store_of issuer_nokey)))
     = Some (Result_zero, None)
  /\ meets failing_ca (sample_world (store_of issuer_valid)) issuer_valid SigningFailure
  /\ answer (run (Reconcile sample_lib failing_ca "ca")
               (sample_world (store_of issuer_valid)))
     = Some (Result_zero, None).
Proof.
  split; [reflexivity|]. split; [reflexivity|]. split; [|reflexivity].
  split; [discriminate|].
  exists issuer_valid.
  exists {| InKeyID := "k1"; InSubjectCommonName := "ca.example";
            InDuration := 3 * time.Hour; InRounding := 2 * time.Hour |}.
  exists (ErrMessage "kms: access denied").
  repeat split.
Qed.

(** ** Status updates per invocation *)

(** C6, as the code has it.  An invocation of [Reconcile] returns after at
    most two status updates.  The paths that do not reach the persistence
    of a signed certificate make at most one: none when the issuer cannot
    be retrieved; exactly one when the key reference is empty or the
    authority refuses to sign, and that one carries the certificate bytes
    as they were retrieved together with a Ready condition that is False.
    When the authority signs, there are exactly two: the first carries the
    new certificate bytes with the conditions as they were retrieved; the
    second carries the same bytes and the Ready condition, True if the
    first update was accepted and False if not. *)
Theorem status_updated_at_most_twice (lib : Libraries) (ca : KMSCA) (req : string)
    (w : World) :
  (exists res w' news,
      run (Reconcile lib ca req) w = Some (res, w')
      /\ statusWrites w' = statusWrites w ++ news
      /\ (List.length news <= 2)%nat)
  /\ ((exists err, apiFault w (apiCalls w) = Some err)
      \/ (apiFault w (apiCalls w) = None /\ store w req = None) ->
      exists res w',
        run (Reconcile lib ca req) w = Some (res, w')
        /\ new_statusWrites w w' = [])
  /\ (forall issuer,
        apiFault w (apiCalls w) = None ->
        store w req = Some issuer ->
        KeyID (Spec issuer) = EmptyString ->
        exists res w' only ready,
          run (Reconcile lib ca req) w = Some (res, w')
          /\ new_statusWrites w w' = [only]
          /\ Certificate (Status (Submitted only)) = Certificate (Status issuer)
          /\ GetCondition (Status (Submitted only)) ConditionReady = Some ready
          /\ CondStatus ready = ConditionFalse)
  /\ (forall issuer issuer' input err,
        apiFault w (apiCalls w) = None ->
        store w req = Some issuer ->
        KeyID (Spec issuer) <> EmptyString ->
        setIssuerDefaultValues issuer = Some issuer' ->
        desiredCertificateAuthorityCertificateInput issuer' = Some input ->
        caSign ca input = inr err ->
        exists res w' only ready,
          run (Reconcile lib ca req) w = Some (res, w')
          /\ new_statusWrites w w' = [only]
          /\ Certificate (Status (Submitted only)) = Certificate (Status issuer)
          /\ GetCondition (Status (Submitted only)) ConditionReady = Some ready
          /\ CondStatus ready = ConditionFalse)
  /\ (forall issuer issuer' input f,
        apiFault w (apiCalls w) = None ->
        store w req = Some issuer ->
        KeyID (Spec issuer) <> EmptyString ->
        setIssuerDefaultValues issuer = Some issuer' ->
        desiredCertificateAuthorityCertificateInput issuer' = Some input ->
        caSign ca input = inl f ->
        exists res w' first second ready,
          run (Reconcile lib ca req) w = Some (res, w')
          /\ new_statusWrites w w' = [first; second]
          /\ Status (Submitted first) =
               {| Conditions := Conditions (Status issuer);
                  Certificate := pem_EncodeToMemory lib "CERTIFICATE" (raw f) |}
          /\ Certificate (Status (Submitted second)) =
               pem_EncodeToMemory lib "CERTIFICATE" (raw f)
          /\ GetCondition (Status (Submitted second)) ConditionReady = Some ready
          /\ CondStatus ready =
               match Answer first with
               | None => ConditionTrue
               | Some _ => ConditionFalse
               end).
Proof.
  split; [apply Reconcile_returns|].
  split.
  { (* the issuer is not retrieved *)
    intros Hget.
    assert (Hrun : exists err,
               run (Reconcile lib ca req) w =
                 Some ((Result_zero, IgnoreNotFound err),
                       add_logLine (tick_api w)
                         (LogError err "failed to retrieve KMSIssuer resource"))).
    { unfold Reconcile. rewrite run_bind, run_Client_Get.
      destruct Hget as [[err Hf]|[Hf Hs]]; rewrite Hf; [|rewrite Hs];
        rewrite run_bind, run_log_Error, run_ret; eexists; reflexivity. }
    destruct Hrun as (err & Hrun). do 2 eexists. split; [exact Hrun|].
    apply new_statusWrites_app. cbn [statusWrites add_logLine tick_api].
    rewrite app_nil_r. reflexivity. }
  split.
  { (* the key reference is empty *)
    intros issuer Hfault Hstore Hkey.
    set (msg := String.append "Not a valid key: " (KeyID (Spec issuer))).
    destruct (manageFailure_reports issuer (ErrMessage "INVALID KeyId") msg (tick_api w))
      as (w' & Hfail & Hrep).
    destruct (failed_condition_submitted issuer msg
                (clock (tick_api w) (clockReads (tick_api w))))
      as (ready & Hget & Hcs & _).
    do 3 eexists. exists ready.
    split.
    { unfold Reconcile. rewrite run_bind, run_Client_Get, Hfault, Hstore.
      destruct (String.eqb_spec (KeyID (Spec issuer)) EmptyString) as [_|Hk];
        [|contradiction].
      fold msg. rewrite run_bind, Hfail, run_ret. reflexivity. }
    unpack.
    split; [apply new_statusWrites_app; exact Hwrites|].
    cbn [Submitted Status with_Status].
    split; [apply SetCondition_Certificate|].
    split; [exact Hget|exact Hcs]. }
  split.
  { (* the authority refuses to sign *)
    intros issuer issuer' input err Hfault Hstore Hkey Hdef Hin Hsign.
    destruct (defaulted_shape _ _ Hdef) as (Hn & Hst & _).
    destruct (Reconcile_validated lib ca req w issuer issuer' input
                Hfault Hstore Hkey Hdef Hin) as (w1 & Hsame & _ & Hrun).
    rewrite (run_renew_refused lib ca issuer' input err w1 Hsign) in Hrun.
    set (wl := add_logLine w1 (LogInfo "generate certificate")) in *.
    destruct (manageFailure_reports issuer' err msg_sign wl) as (w' & Hfail & Hrep).
    rewrite Hfail in Hrun.
    destruct (failed_condition_submitted issuer' msg_sign (clock wl (clockReads wl)))
      as (ready & Hget & Hcs & _).
    do 3 eexists. exists ready.
    split; [exact Hrun|]. clear Hrun Hfail. unpack.
    split.
    { apply new_statusWrites_app. rewrite Hwrites0.
      unfold wl. cbn [statusWrites add_logLine]. rewrite Hwrites. reflexivity. }
    cbn [Submitted Status with_Status].
    split; [rewrite SetCondition_Certificate, Hst; reflexivity|].
    split; [exact Hget|exact Hcs]. }
  intros issuer issuer' input f Hfault Hstore Hkey Hdef Hin Hsign.
  destruct (defaulted_shape _ _ Hdef) as (Hn & Hst & _ & _ & D & R & HD & HR).
  destruct (Reconcile_validated lib ca req w issuer issuer' input
              Hfault Hstore Hkey Hdef Hin) as (w1 & Hsame & _ & Hrun).
  rewrite (run_renew_signed lib ca issuer' input f w1 Hsign) in Hrun.
  cbv zeta in Hrun.
  match type of Hrun with
  | context [after_update ?x ?i1] => set (wl := x) in *; set (issuer1 := i1) in *
  end.
  destruct (after_update_frame wl issuer1) as (Hw2 & _).
  assert (Hwl : statusWrites wl = statusWrites w).
  { unpack. subst wl. cbn [statusWrites set_bigInts add_logLine]. assumption. }
  assert (Hfirst : Status issuer1 =
                   {| Conditions := Conditions (Status issuer);
                      Certificate := pem_EncodeToMemory lib "CERTIFICATE" (raw f) |}).
  { subst issuer1. cbn [Status with_Status]. rewrite Hst. reflexivity. }
  destruct (update_answer wl issuer1) as [err|] eqn:Hans.
  - destruct (manageFailure_reports issuer1 err msg_update (after_update wl issuer1))
      as (w' & Hfail & Hrep).
    rewrite Hfail in Hrun.
    destruct (SetCondition_reads_back (Status issuer1)
                (Ready_condition ConditionFalse KMSIssuerReasonFailed msg_update
                   (clock (after_update wl issuer1) (clockReads (after_update wl issuer1)))))
      as (ready & Hget & Hcs & _).
    do 2 eexists.
    exists {| Submitted := issuer1; Answer := Some err |}.
    eexists. exists ready.
    split; [exact Hrun|]. clear Hrun Hfail. unpack.
    split.
    { apply new_statusWrites_app. rewrite Hwrites0, Hw2, Hwl, <- app_assoc. reflexivity. }
    cbn [Submitted Answer Status with_Status].
    split; [exact Hfirst|]. split; [rewrite SetCondition_Certificate, Hfirst; reflexivity|].
    split; [exact Hget|exact Hcs].
  - rewrite (run_finish issuer1 _ R (after_update wl issuer1)) in Hrun
      by (subst issuer1; exact HR).
    destruct (manageSuccess_reports issuer1 (tick_clock (after_update wl issuer1)))
      as (w' & Hok & Hrep).
    rewrite Hok in Hrun.
    destruct (SetCondition_reads_back (Status issuer1)
                (Ready_condition ConditionTrue KMSIssuerReasonIssued ""
                   (clock (tick_clock (after_update wl issuer1))
                      (clockReads (tick_clock (after_update wl issuer1))))))
      as (ready & Hget & Hcs & _).
    do 2 eexists.
    exists {| Submitted := issuer1; Answer := None |}.
    eexists. exists ready.
    split; [exact Hrun|]. clear Hrun Hok. unpack.
    split.
    { apply new_statusWrites_app. rewrite Hwrites0.
      cbn [statusWrites tick_clock]. rewrite Hw2, Hwl, <- app_assoc. reflexivity. }
    cbn [Submitted Answer Status with_Status].
    split; [exact Hfirst|]. split; [rewrite SetCondition_Certificate, Hfirst; reflexivity|].
    split; [exact Hget|exact Hcs].
Qed.

Lemma status_updated_at_most_twice_witness :
  (exists res w',
      run (Reconcile sample_lib sample_ca "zz") (sample_world (store_of issuer_unset))
        = Some (res, w')
      /\ new_statusWrites (sample_world (store_of issuer_unset)) w' = [])
  /\ (exists res w' only ready,
        run (Reconcile sample_lib sample_ca "ca") (sample_world (store_of issuer_nokey))
          = Some (res, w')
        /\ new_statusWrites (sample_world (store_of issuer_nokey)) w' = [only]
        /\ Certificate (Status (Submitted only)) = Certificate (Status issuer_nokey)
        /\ GetCondition (Status (Submitted only)) ConditionReady = Some ready
        /\ CondStatus ready = ConditionFalse)
  /\ (exists res w' only ready,
        run (Reconcile sample_lib failing_ca "ca") (sample_world (store_of issuer_valid))
          = Some (res, w')
        /\ new_statusWrites (sample_world (store_of issuer_valid)) w' = [only]
        /\ Certificate (Status (Submitted only)) = Certificate (Status issuer_valid)
        /\ GetCondition (Status (Submitted only)) ConditionReady = Some ready
        /\ CondStatus ready = ConditionFalse)
  /\ (exists res w' first second ready,
        run (Reconcile sample_lib sample_ca "ca") (sample_world (store_of issuer_unset))
          = Some (res, w')
        /\ new_statusWrites (sample_world (store_of issuer_unset)) w' = [first; second]
        /\ Status (Submitted first) =
             {| Conditions := Conditions (Status issuer_unset);
                Certificate := pem_EncodeToMemory sample_lib "CERTIFICATE"
                                 [Byte.x07; Byte.x03] |}
        /\ Certificate (Status (Submitted second)) =
             pem_EncodeToMemory sample_lib "CERTIFICATE" [Byte.x07; Byte.x03]
        /\ GetCondition (Status (Submitted second)) ConditionReady = Some ready
        /\ CondStatus ready =
             match Answer first with
             | None => ConditionTrue
             | Some _ => ConditionFalse
             end).
Proof.
  split; [|split; [|split]].
  - apply (proj1 (proj2 (status_updated_at_most_twice sample_lib sample_ca "zz"
                           (sample_world (store_of issuer_unset))))).
    right. split; reflexivity.
  - apply (proj1 (proj2 (proj2
             (status_updated_at_most_twice sample_lib sample_ca "ca"
                (sample_world (store_of issuer_nokey)))))
             issuer_nokey).
    + reflexivity.
    + reflexivity.
    + reflexivity.
  - apply (proj1 (proj2 (proj2 (proj2
             (status_updated_at_most_twice sample_lib failing_ca "ca"
                (sample_world (store_of issuer_valid))))))
             issuer_valid issuer_valid
             {| InKeyID := "k1"; InSubjectCommonName := "ca.example";
                InDuration := 3 * time.Hour; InRounding := 2 * time.Hour |}
             (ErrMessage "kms: access denied")).
    + reflexivity.
    + reflexivity.
    + discriminate.
    + reflexivity.
    + reflexivity.
    + reflexivity.
  - apply (proj2 (proj2 (proj2 (proj2
             (status_updated_at_most_twice sample_lib sample_ca "ca"
                (sample_world (store_of issuer_unset))))))
             issuer_unset
             (with_Spec issuer_unset (with_RenewBefore (Spec issuer_unset) (Some 0)))
             {| InKeyID := "k1"; InSubjectCommonName := "ca.example";
                InDuration := 3 * time.Hour; InRounding := 3 * time.Hour |}
             (sample_preview
                {| InKeyID := "k1"; InSubjectCommonName := "ca.example";
                   InDuration := 3 * time.Hour; InRounding := 3 * time.Hour |})).
    + reflexivity.
    + reflexivity.
    + discriminate.
    + reflexivity.
    + reflexivity.
    + reflexivity.
Defined.

(** C6, as the design document states it, fails: the first reconcile of the
    end-to-end scenario makes two status updates, both accepted.  The first
    persists the certificate bytes without any condition, the second
    persists the Ready condition. *)
Lemma renewal_writes_status_twice :
  option_map
    (fun r => List.map (fun u => (Certificate (Status (Submitted u)),
                                  List.map (fun c => (CondType c, CondStatus c))
                                    (Conditions (Status (Submitted u))),
                                  Answer u))
                (statusWrites (snd r)))
    (run (Reconcile sample_lib sample_ca "ca") (sample_world (store_of issuer_unset)))
  = Some [ ([Byte.x2d; Byte.x07; Byte.x03], [], None);
           ([Byte.x2d; Byte.x07; Byte.x03], [("Ready"%string, ConditionTrue)], None) ].
Proof. vm_compute. reflexivity. Qed.

(** ** The requeue directive *)




(* ===================================================================== *)
(** * Further properties of the controller *)
(* ===================================================================== *)

(** ** Retrieval *)

(** X1. When the resource is not found, [Reconcile] returns the empty
    result and a nil error; it writes no status, records no event and
    leaves the store and the allocated integers as they are.  It logs the
    error. *)
Theorem Reconcile_not_found (lib : Libraries) (ca : KMSCA) (req : string) (w : World) :
  apiFault w (apiCalls w) = Some ErrNotFound
  \/ (apiFault w (apiCalls w) = None /\ store w req = None) ->
  exists w',
    run (Reconcile lib ca req) w = Some ((Result_zero, None), w')
    /\ statusWrites w' = statusWrites w
    /\ events w' = events w
    /\ store w' = store w
    /\ bigInts w' = bigInts w
    /\ logLines w' =
         logLines w ++ [LogError ErrNotFound "failed to retrieve KMSIssuer resource"].
Proof.
  intros H.
  exists (add_logLine (tick_api w)
            (LogError ErrNotFound "failed to retrieve KMSIssuer resource")).
  split; [|repeat split].
  unfold Reconcile. rewrite run_bind, run_Client_Get.
  destruct H as [Hf|[Hf Hs]]; rewrite Hf; [|rewrite Hs];
    rewrite run_bind, run_log_Error, run_ret; reflexivity.
Qed.

Lemma Reconcile_not_found_witness :
  exists w',
    run (Reconcile sample_lib sample_ca "zz") (sample_world (store_of issuer_valid))
      = Some ((Result_zero, None), w')
    /\ statusWrites w' = statusWrites (sample_world (store_of issuer_valid))
    /\ events w' = events (sample_world (store_of issuer_valid))
    /\ store w' = store (sample_world (store_of issuer_valid))
    /\ bigInts w' = bigInts (sample_world (store_of issuer_valid))
    /\ logLines w' =
         logLines (sample_world (store_of issuer_valid))
           ++ [LogError ErrNotFound "failed to retrieve KMSIssuer resource"].
Proof.
  apply (Reconcile_not_found sample_lib sample_ca "zz"
           (sample_world (store_of issuer_valid))).
  right. split; reflexivity.
Defined.

(** X2. When the retrieval fails with any other error, [Reconcile] returns
    that error with the empty result; it writes no status and records no
    event, whatever the store holds. *)
Theorem Reconcile_retrieval_error (lib : Libraries) (ca : KMSCA) (req : string)
    (w : World) (err : error) :
  apiFault w (apiCalls w) = Some err ->
  err <> ErrNotFound ->
  exists w',
    run (Reconcile lib ca req) w = Some ((Result_zero, Some err), w')
    /\ statusWrites w' = statusWrites w
    /\ events w' = events w
    /\ store w' = store w
    /\ bigInts w' = bigInts w.
Proof.
  intros Hf Hne.
  exists (add_logLine (tick_api w)
            (LogError err "failed to retrieve KMSIssuer resource")).
  split; [|repeat split].
  unfold Reconcile. rewrite run_bind, run_Client_Get, Hf.
  rewrite run_bind, run_log_Error, run_ret.
  destruct err; [contradiction| |]; reflexivity.
Qed.

Lemma Reconcile_retrieval_error_witness :
  exists w',
    run (Reconcile sample_lib sample_ca "ca") (unreachable_world (store_of issuer_valid))
      = Some ((Result_zero, Some (ErrMessage "connection refused")), w')
    /\ statusWrites w' = statusWrites (unreachable_world (store_of issuer_valid))
    /\ events w' = events (unreachable_world (store_of issuer_valid))
    /\ store w' = store (unreachable_world (store_of issuer_valid))
    /\ bigInts w' = bigInts (unreachable_world (store_of issuer_valid)).
Proof.
  apply (Reconcile_retrieval_error sample_lib sample_ca "ca"
           (unreachable_world (store_of issuer_valid))
           (ErrMessage "connection refused")).
  - reflexivity.
  - discriminate.
Defined.

(** ** Validation *)

(** X3. An issuer without key reference is reported before anything else is
    done: the only status update carries the spec as it was retrieved (no
    default is filled in) and the certificate as it was retrieved, with a
    Ready condition that is False with the message "Not a valid key: "; no
    integer is allocated, so no certificate is previewed, parsed or signed;
    the persisted certificate bytes of every resource are unchanged. *)
Theorem empty_key_reported_as_retrieved (lib : Libraries) (ca : KMSCA) (req : string)
    (w : World) (issuer : KMSIssuer) :
  apiFault w (apiCalls w) = None ->
  store w req = Some issuer ->
  Name issuer = req ->
  KeyID (Spec issuer) = EmptyString ->
  exists e w' ready,
    run (Reconcile lib ca req) w = Some ((Result_zero, e), w')
    /\ new_statusWrites w w' =
         [{| Submitted :=
               {| Name := Name issuer; Spec := Spec issuer;
                  Status := {| Conditions := mergeCondition (Conditions (Status issuer)) ready;
                               Certificate := Certificate (Status issuer) |} |};
             Answer := e |}]
    /\ CondType ready = ConditionReady /\ CondStatus ready = ConditionFalse
    /\ Reason ready = KMSIssuerReasonFailed
    /\ Message ready = "Not a valid key: "%string
    /\ bigInts w' = bigInts w
    /\ (forall key, stored_certificate w' key = stored_certificate w key).
Proof.
  intros Hfault Hstore Hname Hkey.
  set (msg := String.append "Not a valid key: " (KeyID (Spec issuer))).
  pose proof (run_manageFailure issuer (ErrMessage "INVALID KeyId") msg (tick_api w)) as Hfail.
  cbv zeta in Hfail.
  match type of Hfail with
  | _ = Some (update_answer ?x ?i, _) => set (w1 := x) in *; set (issuer1 := i) in *
  end.
  destruct (after_update_frame w1 issuer1) as (Hw & _ & _ & _ & _ & _ & Hb).
  exists (update_answer w1 issuer1), (after_update w1 issuer1),
    (Ready_condition ConditionFalse KMSIssuerReasonFailed msg
       (clock (tick_api w) (clockReads (tick_api w)))).
  split.
  { unfold Reconcile. rewrite run_bind, run_Client_Get, Hfault, Hstore.
    destruct (String.eqb_spec (KeyID (Spec issuer)) EmptyString) as [_|Hk];
      [|contradiction].
    fold msg. rewrite run_bind, Hfail, run_ret. reflexivity. }
  split; [apply new_statusWrites_app; rewrite Hw; reflexivity|].
  split; [reflexivity|]. split; [reflexivity|]. split; [reflexivity|].
  split; [unfold msg; rewrite Hkey; reflexivity|].
  split; [rewrite Hb; reflexivity|].
  intros key. rewrite after_update_certificate.
  destruct (update_answer w1 issuer1); [reflexivity|].
  destruct (String.eqb_spec key (Name issuer1)) as [->|]; [|reflexivity].
  unfold stored_certificate. cbn [Name issuer1 with_Status store w1 tick_clock add_event
                                    add_logLine tick_api].
  rewrite Hname, Hstore. reflexivity.
Qed.

Lemma empty_key_reported_as_retrieved_witness :
  exists e w' ready,
    run (Reconcile sample_lib sample_ca "ca") (sample_world (store_of issuer_nokey))
      = Some ((Result_zero, e), w')
    /\ new_statusWrites (sample_world (store_of issuer_nokey)) w' =
         [{| Submitted :=
               {| Name := Name issuer_nokey; Spec := Spec issuer_nokey;
                  Status := {| Conditions :=
                                 mergeCondition (Conditions (Status issuer_nokey)) ready;
                               Certificate := Certificate (Status issuer_nokey) |} |};
             Answer := e |}]
    /\ CondType ready = ConditionReady /\ CondStatus ready = ConditionFalse
    /\ Reason ready = KMSIssuerReasonFailed
    /\ Message ready = "Not a valid key: "%string
    /\ bigInts w' = bigInts (sample_world (store_of issuer_nokey))
    /\ (forall key, stored_certificate w' key
                    = stored_certificate (sample_world (store_of issuer_nokey)) key).
Proof.
  apply (empty_key_reported_as_retrieved sample_lib sample_ca "ca"
           (sample_world (store_of issuer_nokey)) issuer_nokey).
  - reflexivity.
  - reflexivity.
  - reflexivity.
  - reflexivity.
Defined.

(** ** The renewal decision on certificates that cannot be read *)

(** X4. When the stored certificate is empty, is not a PEM block or does
    not decode as a certificate, [certificateNeedsRenewal] answers true and
    touches nothing: it reads no clock and allocates nothing, and it does
    not look at [renewBefore], which may be unset. *)
Theorem unreadable_certificate_needs_renewal (lib : Libraries) (issuer : KMSIssuer)
    (desiredCert : x509_Certificate) (w : World) :
  Certificate (Status issuer) = []
  \/ pem_Decode lib (Certificate (Status issuer)) = None
  \/ (exists block err,
        pem_Decode lib (Certificate (Status issuer)) = Some block
        /\ x509_decode lib block = inr err) ->
  run (certificateNeedsRenewal lib issuer desiredCert) w = Some (true, w).
Proof.
  intros H. unfold certificateNeedsRenewal.
  destruct (Certificate (Status issuer)) as [|b rest] eqn:Hc; [reflexivity|].
  cbn [List.length Nat.eqb].
  destruct H as [H|[H|(block & err & Hpem & Hder)]]; [discriminate| |].
  - rewrite run_bind. unfold ParseCertificate. rewrite H, run_ret. reflexivity.
  - rewrite run_bind. unfold ParseCertificate, x509_ParseCertificate.
    rewrite Hpem, Hder, run_ret. reflexivity.
Qed.

Lemma unreadable_certificate_needs_renewal_witness :
  run (certificateNeedsRenewal sample_lib issuer_corrupt preview_seven) (world_seven 0)
    = Some (true, world_seven 0).
Proof.
  apply (unreadable_certificate_needs_renewal sample_lib issuer_corrupt preview_seven
           (world_seven 0)).
  right. left. reflexivity.
Defined.

(** X5. [certificateNeedsRenewal] relies on the defaults: on an issuer whose
    stored certificate parses and whose [renewBefore] is unset it panics on
    the nil pointer. *)
Theorem certificateNeedsRenewal_needs_renewBefore (lib : Libraries) (issuer : KMSIssuer)
    (desiredCert : x509_Certificate) (w : World) (block : bytes) (f : CertificateFields) :
  Certificate (Status issuer) <> [] ->
  pem_Decode lib (Certificate (Status issuer)) = Some block ->
  x509_decode lib block = inl f ->
  RenewBefore (Spec issuer) = None ->
  run (certificateNeedsRenewal lib issuer desiredCert) w = None.
Proof.
  intros Hne Hpem Hder Hrb. unfold certificateNeedsRenewal.
  destruct (Certificate (Status issuer)) as [|b rest] eqn:Hc; [congruence|].
  cbn [List.length Nat.eqb].
  rewrite run_bind. unfold ParseCertificate, x509_ParseCertificate.
  rewrite Hpem, Hder. rewrite run_bind, run_new_Certificate, run_ret.
  rewrite run_bind. unfold deref. rewrite Hrb. reflexivity.
Qed.

Lemma certificateNeedsRenewal_needs_renewBefore_witness :
  run (certificateNeedsRenewal sample_lib issuer_undefaulted preview_seven) (world_seven 0)
    = None.
Proof.
  apply (certificateNeedsRenewal_needs_renewBefore sample_lib issuer_undefaulted
           preview_seven (world_seven 0) [Byte.x07; Byte.x0a]
           {| serialNumber := 7; notAfter := 10 * time.Hour;
              raw := [Byte.x07; Byte.x0a] |}).
  - discriminate.
  - reflexivity.
  - reflexivity.
  - reflexivity.
Defined.

(** X6. [certificateNeedsRenewal] never answers false: for a preview whose
    serial number pointer is nil or allocated, whatever the stored bytes,
    the timing fields, the serial number values and the clock, it answers
    true or panics. *)
Theorem certificateNeedsRenewal_never_false (lib : Libraries) (issuer : KMSIssuer)
    (desiredCert : x509_Certificate) (w : World) :
  allocated (bigInts w) (SerialNumber desiredCert) ->
  answer (run (certificateNeedsRenewal lib issuer desiredCert) w) = Some true
  \/ run (certificateNeedsRenewal lib issuer desiredCert) w = None.
Proof.
  intros Hal.
  destruct (RenewBefore (Spec issuer)) as [rb|] eqn:Hrb.
  { left.
    destruct (certificateNeedsRenewal_always lib issuer desiredCert w rb Hrb Hal)
      as (w' & Hrun & _).
    rewrite Hrun. reflexivity. }
  destruct (Certificate (Status issuer)) as [|b rest] eqn:Hc.
  { left. unfold certificateNeedsRenewal. rewrite Hc. reflexivity. }
  destruct (pem_Decode lib (Certificate (Status issuer))) as [block|] eqn:Hpem.
  2:{ left. unfold certificateNeedsRenewal, ParseCertificate.
      rewrite Hc in *. rewrite Hpem. reflexivity. }
  destruct (x509_decode lib block) as [f|err] eqn:Hder.
  2:{ left. unfold certificateNeedsRenewal, ParseCertificate, x509_ParseCertificate.
      rewrite Hc in *. rewrite Hpem, Hder. reflexivity. }
  right.
  unfold certificateNeedsRenewal. rewrite Hc in *.
  cbn [List.length Nat.eqb].
  rewrite run_bind. unfold ParseCertificate, x509_ParseCertificate.
  rewrite Hpem, Hder. rewrite run_bind, run_new_Certificate, run_ret.
  rewrite run_bind. unfold deref. rewrite Hrb. reflexivity.
Qed.

Lemma certificateNeedsRenewal_never_false_witness :
  answer (run (certificateNeedsRenewal sample_lib issuer_valid preview_seven)
            (world_seven 0)) = Some true
  \/ run (certificateNeedsRenewal sample_lib issuer_valid preview_seven) (world_seven 0)
     = None.
Proof.
  apply (certificateNeedsRenewal_never_false sample_lib issuer_valid preview_seven
           (world_seven 0)).
  cbn. lia.
Defined.

(** ** More on the Default Resolver *)

(** X7. The resolver returns for every issuer and only ever touches the two
    timing fields; the duration it returns is three years when the given
    one is unset or zero, and the given one otherwise, negative ones
    included. *)
Theorem setIssuerDefaultValues_duration (issuer : KMSIssuer) :
  exists issuer',
    setIssuerDefaultValues issuer = Some issuer'
    /\ Name issuer' = Name issuer
    /\ Status issuer' = Status issuer
    /\ KeyID (Spec issuer') = KeyID (Spec issuer)
    /\ CommonName (Spec issuer') = CommonName (Spec issuer)
    /\ Duration (Spec issuer') =
         Some match Duration (Spec issuer) with
              | None => 3 * (365 * (24 * time.Hour))
              | Some d => if d =? 0 then 3 * (365 * (24 * time.Hour)) else d
              end.
Proof.
  destruct (setIssuerDefaultValues_returns issuer) as (D & R & Hdef & HD & _ & Hd & _).
  eexists. split; [exact Hdef|]. cbn.
  repeat split.
  destruct Hd as [Hd|[-> [Hd|Hd]]]; rewrite Hd; [|reflexivity|reflexivity].
  destruct (Z.eqb_spec D 0); [contradiction|reflexivity].
Qed.

(** X8. After the resolver the duration is not zero and the renewal lead
    time exceeds neither the duration nor zero at once: it is at most the
    larger of the two.  A lead time that is set and does not exceed the
    resolved duration is kept as it is, zero and negative ones included;
    every other one (unset, or larger than the resolved duration) becomes
    zero. *)
Theorem setIssuerDefaultValues_renewBefore (issuer : KMSIssuer) :
  exists issuer' D R,
    setIssuerDefaultValues issuer = Some issuer'
    /\ Duration (Spec issuer') = Some D
    /\ RenewBefore (Spec issuer') = Some R
    /\ D <> 0
    /\ R <= Z.max D 0
    /\ R = match RenewBefore (Spec issuer) with
           | Some r => if D <? r then 0 else r
           | None => 0
           end.
Proof.
  destruct (setIssuerDefaultValues_returns issuer)
    as (D & R & Hdef & HD & HR & _ & Hr).
  eexists. exists D, R. split; [exact Hdef|]. cbn.
  split; [reflexivity|]. split; [reflexivity|]. split; [exact HD|].
  split; [lia|].
  destruct Hr as [Hr|[-> [Hr|(r & Hr & Hlt)]]]; rewrite Hr.
  - destruct (Z.ltb_spec D R); [|reflexivity]. destruct HR; [lia|assumption].
  - reflexivity.
  - destruct (Z.ltb_spec D r); [reflexivity|lia].
Qed.

(** ** The input of the certificate authority *)

(** X9. For an issuer whose duration, when set, is a non-negative 64-bit
    duration and whose lead time, when set, is not negative, the input
    built after the resolver has a positive duration and a rounding window
    between zero and that duration, equal to the duration less the resolved
    lead time, and it carries the key reference and the common name.  When
    the lead time is unset the rounding window is the whole duration. *)
Theorem input_after_defaults (issuer : KMSIssuer) :
  (forall d, Duration (Spec issuer) = Some d -> 0 <= d <= Int64.MaxInt64) ->
  (forall r, RenewBefore (Spec issuer) = Some r -> 0 <= r) ->
  exists issuer' input R,
    setIssuerDefaultValues issuer = Some issuer'
    /\ desiredCertificateAuthorityCertificateInput issuer' = Some input
    /\ RenewBefore (Spec issuer') = Some R
    /\ InKeyID input = KeyID (Spec issuer)
    /\ InSubjectCommonName input = CommonName (Spec issuer)
    /\ 0 < InDuration input
    /\ InRounding input = InDuration input - R
    /\ 0 <= InRounding input <= InDuration input
    /\ (RenewBefore (Spec issuer) = None -> InRounding input = InDuration input).
Proof.
  intros Hd Hr.
  destruct (setIssuerDefaultValues_returns issuer)
    as (D & R & Hdef & HD & HR & HD' & HR').
  assert (HDpos : 0 < D <= Int64.MaxInt64).
  { destruct HD' as [H|[-> _]].
    - specialize (Hd D H). lia.
    - split; [reflexivity|discriminate]. }
  assert (HRpos : 0 <= R <= D).
  { destruct HR' as [H|[-> _]].
    - specialize (Hr R H). lia.
    - lia. }
  assert (Hwrap : Int64.sub D R = D - R).
  { unfold Int64.sub. apply wrap_in_range.
    unfold Int64.in_range, Int64.MinInt64, Int64.MaxInt64 in *. lia. }
  eexists. eexists. exists R.
  split; [exact Hdef|].
  split; [apply (desiredInput_returns _ D R); reflexivity|].
  cbn [RenewBefore Spec InKeyID InSubjectCommonName InDuration InRounding KeyID CommonName].
  rewrite Hwrap.
  repeat match goal with |- _ /\ _ => split end; try reflexivity; try lia.
  intros Hnone. destruct HR' as [H|[-> _]]; [congruence|lia].
Qed.

Lemma input_after_defaults_witness :
  exists issuer' input R,
    setIssuerDefaultValues issuer_unset = Some issuer'
    /\ desiredCertificateAuthorityCertificateInput issuer' = Some input
    /\ RenewBefore (Spec issuer') = Some R
    /\ InKeyID input = KeyID (Spec issuer_unset)
    /\ InSubjectCommonName input = CommonName (Spec issuer_unset)
    /\ 0 < InDuration input
    /\ InRounding input = InDuration input - R
    /\ 0 <= InRounding input <= InDuration input
    /\ (RenewBefore (Spec issuer_unset) = None -> InRounding input = InDuration input).
Proof.
  apply (input_after_defaults issuer_unset).
  - intros d H. injection H as <-. split; discriminate.
  - intros r H. discriminate H.
Defined.

(** ** What ends up persisted *)

(** An accepted status update persists the submitted status on the object
    that was there. *)
Lemma after_update_persisted (w : World) (issuer persisted : KMSIssuer) :
  update_answer w issuer = None ->
  store w (Name issuer) = Some persisted ->
  store (after_update w issuer) (Name issuer)
    = Some (with_Status persisted (Status issuer)).
Proof.
  intros Hans Hs. unfold after_update, persist_status. rewrite Hans.
  cbn [store add_statusWrite tick_api]. rewrite Hs.
  cbn [store set_store]. unfold update_store. rewrite String.eqb_refl. reflexivity.
Qed.

(** A refused status update leaves the store as it is. *)
Lemma after_update_refused (w : World) (issuer : KMSIssuer) (err : error) :
  update_answer w issuer = Some err ->
  store (after_update w issuer) = store w.
Proof.
  intros Hans. unfold after_update. rewrite Hans. reflexivity.
Qed.

(** X10. There is no path on which a certificate is kept: whenever the
    issuer is retrieved with a key reference, the authority signs and the
    update that follows is accepted, the persisted certificate becomes the
    PEM block of type CERTIFICATE around the newly signed bytes, whatever
    certificate was stored and whatever the clock reads; one Normal event
    with reason Issued is recorded, and the error returned is the answer to
    the update of [manageSuccess], the third call to the API server. *)
Theorem certificate_is_reissued (lib : Libraries) (ca : KMSCA) (req : string)
    (w : World) (issuer issuer' : KMSIssuer)
    (input : GenerateCertificateAuthorityCertificateInput) (f : CertificateFields) :
  apiFault w (apiCalls w) = None ->
  store w req = Some issuer ->
  Name issuer = req ->
  KeyID (Spec issuer) <> EmptyString ->
  setIssuerDefaultValues issuer = Some issuer' ->
  desiredCertificateAuthorityCertificateInput issuer' = Some input ->
  caSign ca input = inl f ->
  apiFault w (S (apiCalls w)) = None ->
  exists res w',
    run (Reconcile lib ca req) w
      = Some ((res, apiFault w (S (S (apiCalls w)))), w')
    /\ stored_certificate w' req
         = Some (pem_EncodeToMemory lib "CERTIFICATE" (raw f))
    /\ events w' =
         events w ++ [report_event issuer EventTypeNormal KMSIssuerReasonIssued ""].
Proof.
  intros Hfault Hstore Hname Hkey Hdef Hin Hsign Haccepted.
  destruct (defaulted_shape _ _ Hdef) as (Hn & Hst & _ & _ & D & R & _ & HR).
  destruct (Reconcile_validated lib ca req w issuer issuer' input
              Hfault Hstore Hkey Hdef Hin) as (w1 & Hsame & _ & Hrun).
  rewrite (run_renew_signed lib ca issuer' input f w1 Hsign) in Hrun.
  cbv zeta in Hrun.
  match type of Hrun with
  | context [after_update ?x ?i1] => set (wl := x) in *; set (issuer1 := i1) in *
  end.
  unpack.
  assert (Hname1 : Name issuer1 = req) by (unfold issuer1; cbn; congruence).
  assert (Hpres : store wl (Name issuer1) = Some issuer).
  { rewrite Hname1. unfold wl. cbn [store set_bigInts add_logLine].
    rewrite Hstore0. exact Hstore. }
  assert (Hans : update_answer wl issuer1 = None).
  { rewrite (update_answer_present wl issuer1) by (rewrite Hpres; discriminate).
    unfold wl. cbn [apiFault apiCalls set_bigInts add_logLine].
    rewrite Hfault0, Hcalls. exact Haccepted. }
  rewrite Hans in Hrun.
  rewrite (run_finish issuer1 _ R (after_update wl issuer1)) in Hrun by exact HR.
  set (w2 := tick_clock (after_update wl issuer1)) in *.
  destruct (manageSuccess_reports issuer1 w2) as (w' & Hok & Hrep).
  rewrite Hok in Hrun.
  destruct (after_update_frame wl issuer1) as (_ & He2 & Hf2 & Hc2 & _).
  pose proof (after_update_persisted wl issuer1 issuer Hans Hpres) as Hp2.
  assert (Hans2 : update_answer w2 issuer1 = apiFault w (S (S (apiCalls w)))).
  { rewrite (update_answer_present w2 issuer1).
    - unfold w2. cbn [apiFault apiCalls tick_clock]. rewrite Hf2, Hc2.
      unfold wl. cbn [apiFault apiCalls set_bigInts add_logLine].
      rewrite Hfault0, Hcalls. reflexivity.
    - unfold w2. cbn [store tick_clock]. rewrite Hp2. discriminate. }
  rewrite Hans2 in Hrun.
  eexists. exists w'. split; [exact Hrun|]. clear Hrun Hok. unpack.
  split.
  - rewrite Hcert. rewrite Hans2.
    assert (Hbefore : stored_certificate w2 req
                      = Some (pem_EncodeToMemory lib "CERTIFICATE" (raw f))).
    { unfold stored_certificate, w2. cbn [store tick_clock].
      rewrite <- Hname1, Hp2. reflexivity. }
    destruct (apiFault w (S (S (apiCalls w)))); [exact Hbefore|].
    rewrite Hname1, String.eqb_refl. reflexivity.
  - rewrite Hevents0. unfold w2. cbn [events tick_clock]. rewrite He2.
    unfold wl. cbn [events set_bigInts add_logLine]. rewrite Hevents.
    unfold report_event. cbn [Name issuer1 with_Status]. rewrite Hn. reflexivity.
Qed.

Lemma certificate_is_reissued_witness :
  stored_certificate (sample_world (store_of issuer_valid)) "ca"
    = Some [Byte.x2d; Byte.x07; Byte.x0a]
  /\ exists res w',
       run (Reconcile sample_lib sample_ca "ca") (sample_world (store_of issuer_valid))
         = Some ((res, apiFault (sample_world (store_of issuer_valid))
                         (S (S (apiCalls (sample_world (store_of issuer_valid)))))), w')
       /\ stored_certificate w' "ca"
            = Some (pem_EncodeToMemory sample_lib "CERTIFICATE" [Byte.x07; Byte.x03])
       /\ events w' =
            events (sample_world (store_of issuer_valid))
              ++ [report_event issuer_valid EventTypeNormal KMSIssuerReasonIssued ""].
Proof.
  split; [reflexivity|].
  apply (certificate_is_reissued sample_lib sample_ca "ca"
           (sample_world (store_of issuer_valid)) issuer_valid issuer_valid
           {| InKeyID := "k1"; InSubjectCommonName := "ca.example";
              InDuration := 3 * time.Hour; InRounding := 2 * time.Hour |}
           (sample_preview
              {| InKeyID := "k1"; InSubjectCommonName := "ca.example";
                 InDuration := 3 * time.Hour; InRounding := 2 * time.Hour |})).
  - reflexivity.
  - reflexivity.
  - reflexivity.
  - discriminate.
  - reflexivity.
  - reflexivity.
  - reflexivity.
  - reflexivity.
Defined.

(** X11. The certificate is advanced in memory before it is persisted, and
    the failure report submits the issuer as it then is.  So when the update
    that persists the certificate is refused and the update of the failure
    report is accepted, the newly signed certificate is persisted all the
    same, together with a Ready condition that is False with the message of
    the persistence failure, and [Reconcile] returns a nil error. *)
Theorem refused_certificate_persisted_by_report (lib : Libraries) (ca : KMSCA)
    (req : string) (w : World) (issuer issuer' : KMSIssuer)
    (input : GenerateCertificateAuthorityCertificateInput) (f : CertificateFields)
    (err : error) :
  apiFault w (apiCalls w) = None ->
  store w req = Some issuer ->
  Name issuer = req ->
  KeyID (Spec issuer) <> EmptyString ->
  setIssuerDefaultValues issuer = Some issuer' ->
  desiredCertificateAuthorityCertificateInput issuer' = Some input ->
  caSign ca input = inl f ->
  apiFault w (S (apiCalls w)) = Some err ->
  apiFault w (S (S (apiCalls w))) = None ->
  exists w' persisted ready,
    run (Reconcile lib ca req) w = Some ((Result_zero, None), w')
    /\ store w' req = Some persisted
    /\ Spec persisted = Spec issuer
    /\ Certificate (Status persisted) = pem_EncodeToMemory lib "CERTIFICATE" (raw f)
    /\ GetCondition (Status persisted) ConditionReady = Some ready
    /\ CondStatus ready = ConditionFalse
    /\ Reason ready = KMSIssuerReasonFailed
    /\ Message ready = msg_update.
Proof.
  intros Hfault Hstore Hname Hkey Hdef Hin Hsign Hrefused Haccepted.
  destruct (defaulted_shape _ _ Hdef) as (Hn & Hst & _).
  destruct (Reconcile_validated lib ca req w issuer issuer' input
              Hfault Hstore Hkey Hdef Hin) as (w1 & Hsame & _ & Hrun).
  rewrite (run_renew_signed lib ca issuer' input f w1 Hsign) in Hrun.
  cbv zeta in Hrun.
  match type of Hrun with
  | context [after_update ?x ?i1] => set (wl := x) in *; set (issuer1 := i1) in *
  end.
  unpack.
  assert (Hname1 : Name issuer1 = req) by (unfold issuer1; cbn; congruence).
  assert (Hpres : store wl (Name issuer1) = Some issuer).
  { rewrite Hname1. unfold wl. cbn [store set_bigInts add_logLine].
    rewrite Hstore0. exact Hstore. }
  assert (Hans : update_answer wl issuer1 = Some err).
  { rewrite (update_answer_present wl issuer1) by (rewrite Hpres; discriminate).
    unfold wl. cbn [apiFault apiCalls set_bigInts add_logLine].
    rewrite Hfault0, Hcalls. exact Hrefused. }
  rewrite Hans in Hrun.
  set (w2 := after_update wl issuer1) in *.
  destruct (after_update_frame wl issuer1) as (_ & _ & Hf2 & Hc2 & _).
  fold w2 in Hf2, Hc2.
  pose proof (after_update_refused wl issuer1 err Hans) as Hs2. fold w2 in Hs2.
  pose proof (run_manageFailure issuer1 err msg_update w2) as Hfail.
  cbv zeta in Hfail.
  match type of Hfail with
  | _ = Some (update_answer ?x ?i, _) => set (w3 := x) in *; set (issuer2 := i) in *
  end.
  assert (Hpres3 : store w3 (Name issuer2) = Some issuer).
  { unfold w3, issuer2. cbn [store tick_clock add_event add_logLine Name with_Status].
    rewrite Hs2. exact Hpres. }
  assert (Hans3 : update_answer w3 issuer2 = None).
  { rewrite (update_answer_present w3 issuer2) by (rewrite Hpres3; discriminate).
    unfold w3. cbn [apiFault apiCalls tick_clock add_event add_logLine].
    rewrite Hf2, Hc2. unfold wl. cbn [apiFault apiCalls set_bigInts add_logLine].
    rewrite Hfault0, Hcalls. exact Haccepted. }
  rewrite Hfail, Hans3 in Hrun.
  pose proof (after_update_persisted w3 issuer2 issuer Hans3 Hpres3) as Hp3.
  destruct (failed_condition_submitted issuer1 msg_update (clock w2 (clockReads w2)))
    as (ready & Hget & Hcs & Hre & Hmsg).
  exists (after_update w3 issuer2), (with_Status issuer (Status issuer2)), ready.
  split; [exact Hrun|].
  split.
  { replace req with (Name issuer2) by (unfold issuer2; cbn; exact Hname1).
    exact Hp3. }
  split; [reflexivity|].
  split; [reflexivity|].
  split; [exact Hget|]. auto.
Qed.

Lemma refused_certificate_persisted_by_report_witness :
  exists w' persisted ready,
    run (Reconcile sample_lib sample_ca "ca")
        (conflict_on_second_call (store_of issuer_unset))
      = Some ((Result_zero, None), w')
    /\ store w' "ca" = Some persisted
    /\ Spec persisted = Spec issuer_unset
    /\ Certificate (Status persisted)
         = pem_EncodeToMemory sample_lib "CERTIFICATE" [Byte.x07; Byte.x03]
    /\ GetCondition (Status persisted) ConditionReady = Some ready
    /\ CondStatus ready = ConditionFalse
    /\ Reason ready = KMSIssuerReasonFailed
    /\ Message ready = msg_update.
Proof.
  apply (refused_certificate_persisted_by_report sample_lib sample_ca "ca"
           (conflict_on_second_call (store_of issuer_unset)) issuer_unset
           (with_Spec issuer_unset (with_RenewBefore (Spec issuer_unset) (Some 0)))
           {| InKeyID := "k1"; InSubjectCommonName := "ca.example";
              InDuration := 3 * time.Hour; InRounding := 3 * time.Hour |}
           (sample_preview
              {| InKeyID := "k1"; InSubjectCommonName := "ca.example";
                 InDuration := 3 * time.Hour; InRounding := 3 * time.Hour |})
           ErrConflict).
  - reflexivity.
  - reflexivity.
  - reflexivity.
  - discriminate.
  - reflexivity.
  - reflexivity.
  - reflexivity.
  - reflexivity.
  - reflexivity.
Defined.

(** ** Events, conditions and the error returned *)

Lemma manageFailure_agrees (issuer : KMSIssuer) (issue : error) (msg : string) (w : World) :
  exists w' ev write,
    run (manageFailure issuer issue msg) w = Some (Answer write, w')
    /\ events w' = events w ++ [ev]
    /\ statusWrites w' = statusWrites w ++ [write]
    /\ agrees ev write
    /\ EvObject ev = Name issuer
    /\ EvType ev = EventTypeWarning.
Proof.
  destruct (manageFailure_reports issuer issue msg w) as (w' & Hrun & Hrep).
  destruct (SetCondition_reads_back (Status issuer)
              (Ready_condition ConditionFalse KMSIssuerReasonFailed msg
                 (clock w (clockReads w)))) as (ready & Hget & Hcs & Hre & Hmsg).
  unpack.
  exists w', (report_event issuer EventTypeWarning KMSIssuerReasonFailed msg),
    {| Submitted :=
         with_Status issuer
           (SetCondition (Status issuer)
              (Ready_condition ConditionFalse KMSIssuerReasonFailed msg
                 (clock w (clockReads w))));
       Answer := update_answer w issuer |}.
  split; [exact Hrun|]. split; [exact Hevents|]. split; [exact Hwrites|].
  split; [|split; reflexivity].
  split; [reflexivity|]. exists ready. auto.
Qed.

Lemma manageSuccess_agrees (issuer : KMSIssuer) (w : World) :
  exists w' ev write,
    run (manageSuccess issuer) w = Some (Answer write, w')
    /\ events w' = events w ++ [ev]
    /\ statusWrites w' = statusWrites w ++ [write]
    /\ agrees ev write
    /\ EvObject ev = Name issuer
    /\ EvType ev = EventTypeNormal.
Proof.
  destruct (manageSuccess_reports issuer w) as (w' & Hrun & Hrep).
  destruct (SetCondition_reads_back (Status issuer)
              (Ready_condition ConditionTrue KMSIssuerReasonIssued ""
                 (clock w (clockReads w)))) as (ready & Hget & Hcs & Hre & Hmsg).
  unpack.
  exists w', (report_event issuer EventTypeNormal KMSIssuerReasonIssued ""),
    {| Submitted :=
         with_Status issuer
           (SetCondition (Status issuer)
              (Ready_condition ConditionTrue KMSIssuerReasonIssued ""
                 (clock w (clockReads w))));
       Answer := update_answer w issuer |}.
  split; [exact Hrun|]. split; [exact Hevents|]. split; [exact Hwrites|].
  split; [|split; reflexivity].
  split; [reflexivity|]. exists ready. auto.
Qed.

(** X12. Whenever the issuer is retrieved, on every path: [Reconcile]
    records exactly one event, for that issuer; the last status update of
    the invocation tells the same story as the event (same object, same
    reason and message, Ready True for a Normal event and False for a
    Warning); the error returned is the answer to that last update; and
    after a Warning the result is the empty one. *)
Theorem event_and_condition_agree (lib : Libraries) (ca : KMSCA) (req : string)
    (w : World) (issuer : KMSIssuer) :
  apiFault w (apiCalls w) = None ->
  store w req = Some issuer ->
  exists res e w' ev earlier write,
    run (Reconcile lib ca req) w = Some ((res, e), w')
    /\ events w' = events w ++ [ev]
    /\ statusWrites w' = statusWrites w ++ earlier ++ [write]
    /\ agrees ev write
    /\ EvObject ev = Name issuer
    /\ Answer write = e
    /\ (EvType ev = EventTypeWarning -> res = Result_zero).
Proof.
  intros Hfault Hstore.
  destruct (String.eqb (KeyID (Spec issuer)) EmptyString) eqn:Hkey.
  { destruct (manageFailure_agrees issuer (ErrMessage "INVALID KeyId")
                (String.append "Not a valid key: " (KeyID (Spec issuer))) (tick_api w))
      as (w' & ev & write & Hfail & Hev & Hwr & Hag & Hobj & Hty).
    exists Result_zero, (Answer write), w', ev, [], write.
    split.
    { unfold Reconcile. rewrite run_bind, run_Client_Get, Hfault, Hstore, Hkey.
      rewrite run_bind, Hfail, run_ret. reflexivity. }
    auto 8. }
  apply String.eqb_neq in Hkey.
  destruct (setIssuerDefaultValues_returns issuer) as (D & R & Hdef & _).
  match type of Hdef with _ = Some ?i => set (issuer' := i) in * end.
  pose proof (desiredInput_returns issuer' D R eq_refl eq_refl) as Hin.
  match type of Hin with _ = Some ?i => set (input := i) in * end.
  destruct (Reconcile_validated lib ca req w issuer issuer' input
              Hfault Hstore Hkey Hdef Hin) as (w1 & Hsame & _ & Hrun).
  rewrite Hrun. clear Hrun. unpack.
  destruct (caSign ca input) as [f|err] eqn:Hsign.
  2:{ rewrite (run_renew_refused lib ca issuer' input err w1 Hsign).
      destruct (manageFailure_agrees issuer' err msg_sign
                  (add_logLine w1 (LogInfo "generate certificate")))
        as (w' & ev & write & Hfail & Hev & Hwr & Hag & Hobj & Hty).
      rewrite Hfail.
      exists Result_zero, (Answer write), w', ev, [], write.
      split; [reflexivity|].
      cbn [events statusWrites add_logLine] in Hev, Hwr.
      rewrite Hevents in Hev. rewrite Hwrites in Hwr.
      auto 8. }
  rewrite (run_renew_signed lib ca issuer' input f w1 Hsign). cbv zeta.
  match goal with
  | |- context [after_update ?x ?i1] => set (wl := x); set (issuer1 := i1)
  end.
  destruct (after_update_frame wl issuer1) as (Hw2 & He2 & _).
  assert (Hwl : statusWrites wl = statusWrites w) by exact Hwrites.
  assert (Hel : events wl = events w) by exact Hevents.
  assert (Hn1 : Name issuer1 = Name issuer) by reflexivity.
  destruct (update_answer wl issuer1) as [err|] eqn:Hans.
  - destruct (manageFailure_agrees issuer1 err msg_update (after_update wl issuer1))
      as (w' & ev & write & Hfail & Hev & Hwr & Hag & Hobj & Hty).
    rewrite Hfail.
    exists Result_zero, (Answer write), w', ev,
      [{| Submitted := issuer1; Answer := Some err |}], write.
    split; [reflexivity|].
    rewrite He2, Hel in Hev. rewrite Hw2, Hwl, <- app_assoc in Hwr.
    rewrite Hn1 in Hobj. auto 8.
  - rewrite (run_finish issuer1 _ R (after_update wl issuer1) eq_refl).
    destruct (manageSuccess_agrees issuer1 (tick_clock (after_update wl issuer1)))
      as (w' & ev & write & Hok & Hev & Hwr & Hag & Hobj & Hty).
    rewrite Hok.
    do 2 eexists. exists w', ev, [{| Submitted := issuer1; Answer := None |}], write.
    split; [reflexivity|].
    cbn [events statusWrites tick_clock] in Hev, Hwr.
    rewrite He2, Hel in Hev. rewrite Hw2, Hwl, <- app_assoc in Hwr.
    rewrite Hn1 in Hobj.
    repeat match goal with |- _ /\ _ => split end; auto.
    rewrite Hty. discriminate.
Qed.

Lemma event_and_condition_agree_witness :
  exists res e w' ev earlier write,
    run (Reconcile sample_lib failing_ca "ca") (sample_world (store_of issuer_valid))
      = Some ((res, e), w')
    /\ events w' = events (sample_world (store_of issuer_valid)) ++ [ev]
    /\ statusWrites w' =
         statusWrites (sample_world (store_of issuer_valid)) ++ earlier ++ [write]
    /\ agrees ev write
    /\ EvObject ev = Name issuer_valid
    /\ Answer write = e
    /\ (EvType ev = EventTypeWarning -> res = Result_zero).
Proof.
  apply (event_and_condition_agree sample_lib failing_ca "ca"
           (sample_world (store_of issuer_valid)) issuer_valid).
  - reflexivity.
  - reflexivity.
Defined.

(** ** Persisted specs *)

(** A status update leaves every persisted spec as it is. *)
Lemma after_update_spec (w : World) (issuer : KMSIssuer) (key : string) :
  option_map Spec (store (after_update w issuer) key) = option_map Spec (store w key).
Proof.
  unfold after_update, persist_status.
  destruct (update_answer w issuer); [reflexivity|].
  cbn [store add_statusWrite tick_api].
  destruct (store w (Name issuer)) as [persisted|] eqn:Hs; [|reflexivity].
  cbn [store set_store]. unfold update_store.
  destruct (String.eqb_spec key (Name issuer)) as [->|]; [|reflexivity].
  rewrite Hs. reflexivity.
Qed.

Lemma manageFailure_keeps_specs (issuer : KMSIssuer) (issue : error) (msg : string)
    (w : World) :
  exists e w',
    run (manageFailure issuer issue msg) w = Some (e, w')
    /\ forall key, option_map Spec (store w' key) = option_map Spec (store w key).
Proof.
  rewrite run_manageFailure. cbv zeta. do 2 eexists. split; [reflexivity|].
  intros key. rewrite after_update_spec. reflexivity.
Qed.

Lemma manageSuccess_keeps_specs (issuer : KMSIssuer) (w : World) :
  exists e w',
    run (manageSuccess issuer) w = Some (e, w')
    /\ forall key, option_map Spec (store w' key) = option_map Spec (store w key).
Proof.
  rewrite run_manageSuccess. cbv zeta. do 2 eexists. split; [reflexivity|].
  intros key. rewrite after_update_spec. reflexivity.
Qed.

(** X13. [Reconcile] never rewrites a spec: in every world and on every
    path it returns with the spec of every persisted resource as it was.
    In particular the defaults it fills in are not persisted. *)
Theorem persisted_specs_untouched (lib : Libraries) (ca : KMSCA) (req : string)
    (w : World) :
  exists res w',
    run (Reconcile lib ca req) w = Some (res, w')
    /\ forall key, option_map Spec (store w' key) = option_map Spec (store w key).
Proof.
  destruct (apiFault w (apiCalls w)) as [err|] eqn:Hfault.
  { do 2 eexists. unfold Reconcile. rewrite run_bind, run_Client_Get, Hfault.
    rewrite run_bind, run_log_Error, run_ret. split; reflexivity. }
  destruct (store w req) as [issuer|] eqn:Hstore.
  2:{ do 2 eexists. unfold Reconcile. rewrite run_bind, run_Client_Get, Hfault, Hstore.
      rewrite run_bind, run_log_Error, run_ret. split; reflexivity. }
  destruct (String.eqb (KeyID (Spec issuer)) EmptyString) eqn:Hkey.
  { destruct (manageFailure_keeps_specs issuer (ErrMessage "INVALID KeyId")
                (String.append "Not a valid key: " (KeyID (Spec issuer))) (tick_api w))
      as (e & w' & Hfail & Hspec).
    do 2 eexists. unfold Reconcile.
    rewrite run_bind, run_Client_Get, Hfault, Hstore, Hkey.
    rewrite run_bind, Hfail, run_ret. split; [reflexivity|exact Hspec]. }
  apply String.eqb_neq in Hkey.
  destruct (setIssuerDefaultValues_returns issuer) as (D & R & Hdef & _).
  match type of Hdef with _ = Some ?i => set (issuer' := i) in * end.
  pose proof (desiredInput_returns issuer' D R eq_refl eq_refl) as Hin.
  match type of Hin with _ = Some ?i => set (input := i) in * end.
  destruct (Reconcile_validated lib ca req w issuer issuer' input
              Hfault Hstore Hkey Hdef Hin) as (w1 & Hsame & _ & Hrun).
  rewrite Hrun. clear Hrun. unpack.
  destruct (caSign ca input) as [f|err] eqn:Hsign.
  2:{ rewrite (run_renew_refused lib ca issuer' input err w1 Hsign).
      destruct (manageFailure_keeps_specs issuer' err msg_sign
                  (add_logLine w1 (LogInfo "generate certificate")))
        as (e & w' & Hfail & Hspec).
      rewrite Hfail. do 2 eexists. split; [reflexivity|].
      intros key. rewrite Hspec. cbn [store add_logLine]. rewrite Hstore0. reflexivity. }
  rewrite (run_renew_signed lib ca issuer' input f w1 Hsign). cbv zeta.
  match goal with
  | |- context [after_update ?x ?i1] => set (wl := x); set (issuer1 := i1)
  end.
  assert (Hsl : store wl = store w) by exact Hstore0.
  destruct (update_answer wl issuer1) as [err|] eqn:Hans.
  - destruct (manageFailure_keeps_specs issuer1 err msg_update (after_update wl issuer1))
      as (e & w' & Hfail & Hspec).
    rewrite Hfail. do 2 eexists. split; [reflexivity|].
    intros key. rewrite Hspec, after_update_spec, Hsl. reflexivity.
  - rewrite (run_finish issuer1 _ R (after_update wl issuer1) eq_refl).
    destruct (manageSuccess_keeps_specs issuer1 (tick_clock (after_update wl issuer1)))
      as (e & w' & Hok & Hspec).
    rewrite Hok. do 2 eexists. split; [reflexivity|].
    intros key. rewrite Hspec. cbn [store tick_clock].
    rewrite after_update_spec, Hsl. reflexivity.
Qed.

(** ** Reading back what was persisted *)

Lemma big_Int_value_new (h : list Z) (v : Z) :
  big_Int_value (h ++ [v]) (Some (List.length h)) = Some v.
Proof.
  cbn. rewrite nth_error_app2 by lia. rewrite Nat.sub_diag. reflexivity.
Qed.

(** X14. What [Reconcile] persists, [ParseCertificate] reads back.  Take
    codecs for which the PEM block of the signed bytes decodes to those
    bytes and the signed bytes decode to the signed certificate.  Then after
    an invocation in which the authority signs and the update that follows
    is accepted, [ParseCertificate] applied in any world to the persisted
    bytes returns a certificate with the expiry, the raw bytes and the
    serial number value of the signed one, whose serial number is a newly
    allocated integer. *)
Theorem persisted_certificate_parses_back (lib : Libraries) (ca : KMSCA) (req : string)
    (w : World) (issuer issuer' : KMSIssuer)
    (input : GenerateCertificateAuthorityCertificateInput) (f : CertificateFields) :
  apiFault w (apiCalls w) = None ->
  store w req = Some issuer ->
  Name issuer = req ->
  KeyID (Spec issuer) <> EmptyString ->
  setIssuerDefaultValues issuer = Some issuer' ->
  desiredCertificateAuthorityCertificateInput issuer' = Some input ->
  caSign ca input = inl f ->
  apiFault w (S (apiCalls w)) = None ->
  pem_Decode lib (pem_EncodeToMemory lib "CERTIFICATE" (raw f)) = Some (raw f) ->
  x509_decode lib (raw f) = inl f ->
  exists res w' stored,
    run (Reconcile lib ca req) w = Some (res, w')
    /\ stored_certificate w' req = Some stored
    /\ forall w2, exists actualCert w2',
         run (ParseCertificate lib stored) w2 = Some (inl actualCert, w2')
         /\ NotAfter actualCert = notAfter f
         /\ Raw actualCert = raw f
         /\ SerialNumber actualCert = Some (List.length (bigInts w2))
         /\ big_Int_value (bigInts w2') (SerialNumber actualCert) = Some (serialNumber f).
Proof.
  intros Hfault Hstore Hname Hkey Hdef Hin Hsign Haccepted Hpem Hder.
  destruct (defaulted_shape _ _ Hdef) as (Hn & Hst & _ & _ & D & R & _ & HR).
  destruct (Reconcile_validated lib ca req w issuer issuer' input
              Hfault Hstore Hkey Hdef Hin) as (w1 & Hsame & _ & Hrun).
  rewrite (run_renew_signed lib ca issuer' input f w1 Hsign) in Hrun.
  cbv zeta in Hrun.
  match type of Hrun with
  | context [after_update ?x ?i1] => set (wl := x) in *; set (issuer1 := i1) in *
  end.
  unpack.
  assert (Hname1 : Name issuer1 = req) by (unfold issuer1; cbn; congruence).
  assert (Hpres : store wl (Name issuer1) = Some issuer).
  { rewrite Hname1. unfold wl. cbn [store set_bigInts add_logLine].
    rewrite Hstore0. exact Hstore. }
  assert (Hans : update_answer wl issuer1 = None).
  { rewrite (update_answer_present wl issuer1) by (rewrite Hpres; discriminate).
    unfold wl. cbn [apiFault apiCalls set_bigInts add_logLine].
    rewrite Hfault0, Hcalls. exact Haccepted. }
  rewrite Hans in Hrun.
  rewrite (run_finish issuer1 _ R (after_update wl issuer1)) in Hrun by exact HR.
  set (w2 := tick_clock (after_update wl issuer1)) in *.
  destruct (manageSuccess_reports issuer1 w2) as (w' & Hok & Hrep).
  rewrite Hok in Hrun.
  pose proof (after_update_persisted wl issuer1 issuer Hans Hpres) as Hp2.
  do 2 eexists. exists (pem_EncodeToMemory lib "CERTIFICATE" (raw f)).
  split; [exact Hrun|]. clear Hrun Hok. unpack.
  split.
  - rewrite Hcert.
    assert (Hbefore : stored_certificate w2 req
                      = Some (pem_EncodeToMemory lib "CERTIFICATE" (raw f))).
    { unfold stored_certificate, w2. cbn [store tick_clock].
      rewrite <- Hname1, Hp2. reflexivity. }
    destruct (update_answer w2 issuer1); [exact Hbefore|].
    rewrite Hname1, String.eqb_refl. reflexivity.
  - intros w3. do 2 eexists.
    unfold ParseCertificate, x509_ParseCertificate. rewrite Hpem, Hder.
    rewrite run_bind, run_new_Certificate, run_ret.
    split; [reflexivity|]. cbn [NotAfter Raw SerialNumber bigInts set_bigInts].
    repeat split. apply big_Int_value_new.
Qed.

Lemma persisted_certificate_parses_back_witness :
  exists res w' stored,
    run (Reconcile sample_lib sample_ca "ca") (sample_world (store_of issuer_unset))
      = Some (res, w')
    /\ stored_certificate w' "ca" = Some stored
    /\ forall w2, exists actualCert w2',
         run (ParseCertificate sample_lib stored) w2 = Some (inl actualCert, w2')
         /\ NotAfter actualCert = 3 * time.Hour
         /\ Raw actualCert = [Byte.x07; Byte.x03]
         /\ SerialNumber actualCert = Some (List.length (bigInts w2))
         /\ big_Int_value (bigInts w2') (SerialNumber actualCert) = Some 7.
Proof.
  apply (persisted_certificate_parses_back sample_lib sample_ca "ca"
           (sample_world (store_of issuer_unset)) issuer_unset
           (with_Spec issuer_unset (with_RenewBefore (Spec issuer_unset) (Some 0)))
           {| InKeyID := "k1"; InSubjectCommonName := "ca.example";
              InDuration := 3 * time.Hour; InRounding := 3 * time.Hour |}
           (sample_preview
              {| InKeyID := "k1"; InSubjectCommonName := "ca.example";
                 InDuration := 3 * time.Hour; InRounding := 3 * time.Hour |})).
  - reflexivity.
  - reflexivity.
  - reflexivity.
  - discriminate.
  - reflexivity.
  - reflexivity.
  - reflexivity.
  - reflexivity.
  - reflexivity.
  - reflexivity.
Defined.
